(** * The online-shop order demo ([projeto.py]) and its specification

    A shallow embedding of [projeto.py]: the classes [Order],
    [OrderRepository], [CreditCardPayment], [PixPayment], [NoDiscount],
    [PercentageDiscount] and [OrderService], the function [get_user_input]
    and the [__main__] loop.

    - Python objects live in a heap and are handled through references, so
      that what a method leaves untouched can be stated.
    - [float] is IEEE 754 binary64, as in CPython: Rocq's primitive floats.
    - [print] and [input] act on a console: a list of pending input lines
      and the list of what was written so far.
    - An uncaught exception ends the computation with that exception. *)

From Stdlib Require Import ZArith Floats String Ascii List Lia Bool.
From stdpp Require Import base list.
Import ListNotations.

#[local] Set Warnings "-inexact-float".
#[local] Open Scope string_scope.
#[local] Open Scope list_scope.

(** ** Values written to the console *)

(** A formatted string literal before rendering: its literal text and the
    values interpolated in it ([str], [float], [List[str]]). *)
Inductive piece : Type :=
| Txt (s : string)
| FStr (s : string)
| FFloat (x : float)
| FList (l : list string).

(** What reaches standard output: a line written by [print], or the prompt
    that [input] writes before it reads. *)
Inductive out : Type :=
| Print (l : list piece)
| Prompt (s : string).

(** ** Objects *)

Definition loc : Type := nat.

(** One constructor per class of the module, with the instance attributes
    its [__init__] sets. *)
Inductive obj : Type :=
| Order (items : list string) (customer : string)
| OrderRepository
| CreditCardPayment
| PixPayment
| NoDiscount
| PercentageDiscount (percentage : float)
| OrderService (payment_processor discount : loc).

Inductive exn : Type :=
| ValueError
| EOFError
| AttributeError.

(** ** The interpreter state and the monad of computations *)

Record world : Type := World {
  heap : list obj;
  stdin : list string;
  stdout : list out
}.

Inductive result (A : Type) : Type :=
| Ok (a : A) (w : world)
| Raise (e : exn) (w : world).
Arguments Ok {A} a w.
Arguments Raise {A} e w.

Definition M (A : Type) : Type := world -> result A.

Definition ret {A} (a : A) : M A := fun w => Ok a w.

Definition bind {A B} (c : M A) (k : A -> M B) : M B :=
  fun w =>
    match c w with
    | Ok a w' => k a w'
    | Raise e w' => Raise e w'
    end.

Definition raise {A} (e : exn) : M A := fun w => Raise e w.

Declare Scope py_scope.
Delimit Scope py_scope with py.
Notation "x <- c ;; k" := (bind c (fun x => k))
  (at level 100, c at next level, right associativity) : py_scope.
Notation "c ;; k" := (bind c (fun _ => k))
  (at level 100, right associativity) : py_scope.
#[local] Open Scope py_scope.

(** [print(f"...")] *)
Definition print (l : list piece) : M unit :=
  fun w => Ok tt (World (heap w) (stdin w) (stdout w ++ [Print l])).

(** [input(prompt)]: writes the prompt, then reads one line; [EOFError] at
    the end of the input. *)
Definition input (prompt : string) : M string :=
  fun w =>
    let so := stdout w ++ [Prompt prompt] in
    match stdin w with
    | [] => Raise EOFError (World (heap w) [] so)
    | l :: rest => Ok l (World (heap w) rest so)
    end.

(** Instantiating a class: a new object, at a new reference. *)
Definition new (o : obj) : M loc :=
  fun w => Ok (length (heap w)) (World (heap w ++ [o]) (stdin w) (stdout w)).

Definition deref (l : loc) : M (option obj) :=
  fun w => Ok (heap w !! l) w.

(** ** String methods *)

(** [s.split(sep)] for a one-character separator. *)
Fixpoint split (sep : ascii) (s : string) : list string :=
  match s with
  | EmptyString => [EmptyString]
  | String c s' =>
      if Ascii.eqb c sep then EmptyString :: split sep s'
      else match split sep s' with
           | h :: t => String c h :: t
           | [] => [String c EmptyString]
           end
  end.

Definition lower_ascii (c : ascii) : ascii :=
  let n := nat_of_ascii c in
  if (65 <=? n)%nat && (n <=? 90)%nat then ascii_of_nat (n + 32) else c.

(** [s.lower()].  Strings are byte strings here (UTF-8); the letters A-Z
    are mapped to a-z and every other byte is kept.  No character other
    than [S] has [s] as its lower case, so the test [lower s = "s"] agrees
    with Python's on every string. *)
Fixpoint lower (s : string) : string :=
  match s with
  | EmptyString => EmptyString
  | String c s' => String (lower_ascii c) (lower s')
  end.

(** ** The classes *)

(** [OrderRepository.save_order] *)
Definition save_order (self order : loc) : M unit :=
  o <- deref order ;;
  match o with
  | Some (Order items customer) =>
      print [Txt "Salvando pedido para "; FStr customer;
             Txt " com itens: "; FList items]
  | _ => raise AttributeError
  end.

(** [PaymentProcessor.process_payment], dispatched on the class of [self]:
    [CreditCardPayment] and [PixPayment] implement it. *)
Definition process_payment (self : loc) (amount : float) : M unit :=
  o <- deref self ;;
  match o with
  | Some CreditCardPayment =>
      print [Txt "Processando pagamento com cartão de crédito de ";
             FFloat amount; Txt "."]
  | Some PixPayment =>
      print [Txt "Processando o pagamento do Pix de "; FFloat amount; Txt "."]
  | _ => raise AttributeError
  end.

(** [Discount.apply_discount], dispatched on the class of [self]:
    [NoDiscount] and [PercentageDiscount] implement it. *)
Definition apply_discount (self : loc) (total : float) : M float :=
  o <- deref self ;;
  match o with
  | Some NoDiscount => ret total
  | Some (PercentageDiscount percentage) => ret (total * (1 - percentage))%float
  | _ => raise AttributeError
  end.

(** [OrderService.place_order] *)
Definition place_order (self order : loc) (total : float) : M unit :=
  s <- deref self ;;
  match s with
  | Some (OrderService payment_processor discount) =>
      discounted_total <- apply_discount discount total ;;
      print [Txt "Final total após desconto: "; FFloat discounted_total] ;;
      process_payment payment_processor discounted_total ;;
      repo <- new OrderRepository ;;
      save_order repo order
  | _ => raise AttributeError
  end.

(** ** The console session *)

Section Session.

(** The builtins [int] and [float] applied to a string: the number read,
    or [None] where Python raises [ValueError].  They belong to the
    language, not to the module, and are left open: every result below
    holds for whatever strings they accept. *)
Variable int_of_string : string -> option Z.
Variable float_of_string : string -> option float.

Definition py_int (s : string) : M Z :=
  match int_of_string s with
  | Some n => ret n
  | None => raise ValueError
  end.

Definition py_float (s : string) : M float :=
  match float_of_string s with
  | Some x => ret x
  | None => raise ValueError
  end.

Definition get_user_input : M unit :=
  print [Txt "Bem-vindo ao sistema de pedidos da loja online!"] ;;
  customer <- input "Informe o nome do cliente: " ;;
  line <- input "Informe os itens separados por vírgula: " ;;
  let items := split "," line in
  line <- input "Informe o valor total da compra: " ;;
  total <- py_float line ;;
  print [Txt "Escolha o método de pagamento:"] ;;
  print [Txt "1. Cartão de Crédito"] ;;
  print [Txt "2. Pix"] ;;
  line <- input "Digite a opção de pagamento: " ;;
  payment_option <- py_int line ;;
  payment_processor <-
    (if (payment_option =? 1)%Z then new CreditCardPayment
     else if (payment_option =? 2)%Z then new PixPayment
     else
       print [Txt "Opção inválida! Usando Cartão de Crédito por padrão."] ;;
       new CreditCardPayment) ;;
  print [Txt "Escolha o tipo de desconto:"] ;;
  print [Txt "1. Sem Desconto"] ;;
  print [Txt "2. Desconto de 10%"] ;;
  line <- input "Digite a opção de desconto: " ;;
  discount_option <- py_int line ;;
  discount <-
    (if (discount_option =? 1)%Z then new NoDiscount
     else if (discount_option =? 2)%Z then new (PercentageDiscount 0.1)
     else
       print [Txt "Opção inválida! Usando Sem Desconto por padrão."] ;;
       new NoDiscount) ;;
  order <- new (Order items customer) ;;
  order_service <- new (OrderService payment_processor discount) ;;
  place_order order_service order total.

(** The [while True] loop of [__main__].  [fuel] bounds the number of
    iterations; [None] means the bound was reached.  [main_terminates]
    below shows that one more than the number of pending input lines is
    always enough. *)
Fixpoint main (fuel : nat) (w : world) : option (result unit) :=
  match fuel with
  | O => None
  | S fuel' =>
      match get_user_input w with
      | Raise e w1 => Some (Raise e w1)
      | Ok _ w1 =>
          match input "Deseja fazer outro pedido? (s/n): " w1 with
          | Raise e w2 => Some (Raise e w2)
          | Ok answer w2 =>
              let continue_shopping := lower answer in
              if negb (String.eqb continue_shopping "s")
              then Some (print [Txt "Obrigado por utilizar o sistema!"] w2)
              else main fuel' w2
          end
      end
  end.

Definition session (w : world) : option (result unit) :=
  main (S (length (stdin w))) w.

(** A numeric answer that [float] or [int] rejects, at the place where
    [get_user_input] reads it. *)
Definition bad_number (si : list string) : Prop :=
  (exists customer line t rest,
      si = customer :: line :: t :: rest /\ float_of_string t = None) \/
  (exists customer line t p rest,
      si = customer :: line :: t :: p :: rest /\ int_of_string p = None) \/
  (exists customer line t p d rest,
      si = customer :: line :: t :: p :: d :: rest /\ int_of_string d = None).

End Session.

(** ** Sample builtins

    Plain decimal numerals, read as Python reads them: [sample_int] accepts
    a non-empty string of digits, [sample_float] such a string below 2^53,
    where the conversion to binary64 is exact.  They instantiate the
    results on concrete sessions. *)

Fixpoint digits (acc : Z) (s : string) : option Z :=
  match s with
  | EmptyString => Some acc
  | String c s' =>
      let n := Z.of_nat (nat_of_ascii c) in
      if ((48 <=? n) && (n <=? 57))%Z then digits (10 * acc + (n - 48)) s'
      else None
  end.

Definition sample_int (s : string) : option Z :=
  match s with
  | EmptyString => None
  | _ => digits 0 s
  end.

Definition sample_float (s : string) : option float :=
  match sample_int s with
  | Some n =>
      if (n <? 2 ^ 53)%Z then Some (PrimFloat.of_uint63 (Uint63.of_Z n))
      else None
  | None => None
  end.

(** A console with pending input lines, nothing written and no object. *)
Definition console (lines : list string) : world := World [] lines [].

(** ** The class hierarchy *)

(** [class CreditCardPayment(PaymentProcessor)], [class PixPayment(PaymentProcessor)] *)
Definition is_payment_processor (o : obj) : bool :=
  match o with
  | CreditCardPayment | PixPayment => true
  | _ => false
  end.

(** [class NoDiscount(Discount)], [class PercentageDiscount(Discount)] *)
Definition is_discount (o : obj) : bool :=
  match o with
  | NoDiscount | PercentageDiscount _ => true
  | _ => false
  end.

(** ** Lines of the console, by the statement that writes them *)

Definition total_line (x : float) : out :=
  Print [Txt "Final total após desconto: "; FFloat x].

Definition credit_card_line (x : float) : out :=
  Print [Txt "Processando pagamento com cartão de crédito de "; FFloat x; Txt "."].

Definition pix_line (x : float) : out :=
  Print [Txt "Processando o pagamento do Pix de "; FFloat x; Txt "."].

Definition saved_line (customer : string) (items : list string) : out :=
  Print [Txt "Salvando pedido para "; FStr customer; Txt " com itens: "; FList items].

Definition payment_warning : out :=
  Print [Txt "Opção inválida! Usando Cartão de Crédito por padrão."].

Definition discount_warning : out :=
  Print [Txt "Opção inválida! Usando Sem Desconto por padrão."].

Definition closing_line : out :=
  Print [Txt "Obrigado por utilizar o sistema!"].

(** The number of orders a console shows as saved. *)
Definition is_saved_line (o : out) : bool :=
  match o with
  | Print [Txt t1; FStr _; Txt t2; FList _] =>
      String.eqb t1 "Salvando pedido para " && String.eqb t2 " com itens: "
  | _ => false
  end.

Definition orders_saved (so : list out) : nat :=
  length (List.filter is_saved_line so).

(** ** One run of [get_user_input], by the answers read *)

(** The two [if]/[elif]/[else] selections of [get_user_input], as functions
    of the option read: the object instantiated and the warning printed. *)
Definition chosen_payment (payment_option : Z) : obj :=
  if (payment_option =? 1)%Z then CreditCardPayment
  else if (payment_option =? 2)%Z then PixPayment
  else CreditCardPayment.

Definition chosen_payment_warning (payment_option : Z) : list out :=
  if (payment_option =? 1)%Z then []
  else if (payment_option =? 2)%Z then []
  else [payment_warning].

Definition chosen_discount (discount_option : Z) : obj :=
  if (discount_option =? 1)%Z then NoDiscount
  else if (discount_option =? 2)%Z then PercentageDiscount 0.1
  else NoDiscount.

Definition chosen_discount_warning (discount_option : Z) : list out :=
  if (discount_option =? 1)%Z then []
  else if (discount_option =? 2)%Z then []
  else [discount_warning].

(** What [process_payment] writes, by the class of the processor. *)
Definition payment_line (o : obj) (x : float) : out :=
  match o with
  | PixPayment => pix_line x
  | _ => credit_card_line x
  end.

(** What [apply_discount] returns, by the class of the discount. *)
Definition discounted (o : obj) (total : float) : float :=
  match o with
  | PercentageDiscount rate => (total * (1 - rate))%float
  | _ => total
  end.

(** Everything [get_user_input] writes up to the payment prompt. *)
Definition order_prompts : list out :=
  [Print [Txt "Bem-vindo ao sistema de pedidos da loja online!"];
   Prompt "Informe o nome do cliente: ";
   Prompt "Informe os itens separados por vírgula: ";
   Prompt "Informe o valor total da compra: "].

Definition payment_menu : list out :=
  [Print [Txt "Escolha o método de pagamento:"];
   Print [Txt "1. Cartão de Crédito"];
   Print [Txt "2. Pix"];
   Prompt "Digite a opção de pagamento: "].

Definition discount_menu : list out :=
  [Print [Txt "Escolha o tipo de desconto:"];
   Print [Txt "1. Sem Desconto"];
   Print [Txt "2. Desconto de 10%"];
   Prompt "Digite a opção de desconto: "].

Definition continue_prompt : out := Prompt "Deseja fazer outro pedido? (s/n): ".

(** The console output of one order, from the welcome line to the line of
    the repository. *)
Definition order_output (customer line : string) (total : float)
    (payment_option discount_option : Z) : list out :=
  order_prompts ++ payment_menu ++ chosen_payment_warning payment_option ++
  discount_menu ++ chosen_discount_warning discount_option ++
  [total_line (discounted (chosen_discount discount_option) total);
   payment_line (chosen_payment payment_option)
     (discounted (chosen_discount discount_option) total);
   saved_line customer (split "," line)].

(** The objects one order creates, from reference [n] on. *)
Definition order_objects (n : nat) (customer line : string)
    (payment_option discount_option : Z) : list obj :=
  [chosen_payment payment_option; chosen_discount discount_option;
   Order (split "," line) customer; OrderService n (S n); OrderRepository].

(** ** Binary64 numbers, as [SpecFloat] represents them *)

(** The number one, as [Prim2SF 1] computes it. *)
Definition SF_one : spec_float := S754_finite false 4503599627370496 (-52)%Z.

(** A number that is not NaN, with the given sign bit. *)
Definition has_sign (sx : bool) (x : spec_float) : Prop :=
  match x with
  | S754_nan => False
  | S754_zero s | S754_infinity s | S754_finite s _ _ => s = sx
  end.

Definition is_zero_sf (x : spec_float) : bool :=
  match x with
  | S754_zero _ => true
  | _ => false
  end.

(** *** Shifting a mantissa to the right *)

(** [b] is [a] shifted right by [k] bits. *)
Definition inexact (mrs : shr_record) : bool := shr_r mrs || shr_s mrs.

Definition shifted (k : Z) (a b : shr_record) : Prop :=
  (0 <= shr_m b)%Z /\
  (shr_m b * 2 ^ k <= shr_m a < (shr_m b + 1) * 2 ^ k)%Z /\
  (inexact b = true -> inexact a = true \/ (shr_m b * 2 ^ k < shr_m a)%Z).

(** ** States and console lines of a whole session *)

(** The final state of a computation, however it ended. *)
Definition world_of {A} (r : result A) : world :=
  match r with
  | Ok _ w => w
  | Raise _ w => w
  end.

Definition is_closing_line (o : out) : bool :=
  match o with
  | Print [Txt t] => String.eqb t "Obrigado por utilizar o sistema!"
  | _ => false
  end.

(** The number of closing lines a console shows. *)
Definition closings (so : list out) : nat :=
  length (List.filter is_closing_line so).

Definition is_order (o : obj) : bool :=
  match o with
  | Order _ _ => true
  | _ => false
  end.

Definition is_service (o : obj) : bool :=
  match o with
  | OrderService _ _ => true
  | _ => false
  end.

(** Every service in the heap holds a payment processor and a discount. *)
Definition well_formed (h : list obj) : Prop :=
  forall (l pp d : loc),
    h !! l = Some (OrderService pp d) ->
    exists po dobj : obj,
      h !! pp = Some po /\ is_payment_processor po = true /\
      h !! d = Some dobj /\ is_discount dobj = true.

(** [w'] is a later state of [w]: the objects and the console output are
    still there, with more added behind them, and what is left of the
    input is the end of what was left. *)
Definition extends (w w' : world) : Prop :=
  heap w `prefix_of` heap w' /\
  stdout w `prefix_of` stdout w' /\
  stdin w' `suffix_of` stdin w.

(** The number of occurrences of a character in a string. *)
Fixpoint count_char (c : ascii) (s : string) : nat :=
  match s with
  | EmptyString => 0
  | String c' s' => (if Ascii.eqb c' c then 1 else 0) + count_char c s'
  end.

(** * Properties *)

(** ** The heap only grows *)

Lemma lookup_new (h : list obj) (o : obj) : (h ++ [o]) !! length h = Some o.
Proof. now apply list_lookup_middle. Qed.

Lemma lookup_old (h ext : list obj) (l : loc) (o : obj) :
  h !! l = Some o -> (h ++ ext) !! l = Some o.
Proof. intros H. apply lookup_app_l_Some. exact H. Qed.

(** ** Running the methods on objects of the right class *)

Lemma apply_discount_NoDiscount (w : world) (self : loc) (total : float) :
  heap w !! self = Some NoDiscount ->
  apply_discount self total w = Ok total w.
Proof. intros H. unfold apply_discount, bind, deref. now rewrite H. Qed.

Lemma apply_discount_PercentageDiscount (w : world) (self : loc) (rate total : float) :
  heap w !! self = Some (PercentageDiscount rate) ->
  apply_discount self total w = Ok (total * (1 - rate))%float w.
Proof. intros H. unfold apply_discount, bind, deref. now rewrite H. Qed.

Lemma apply_discount_pure (w : world) (self : loc) (total : float) (o : obj) :
  heap w !! self = Some o -> is_discount o = true ->
  exists x, apply_discount self total w = Ok x w.
Proof.
  intros H Hd. destruct o; try discriminate Hd.
  - exists total. now apply apply_discount_NoDiscount.
  - eexists. apply apply_discount_PercentageDiscount. exact H.
Qed.

Lemma process_payment_run (w : world) (self : loc) (amount : float) (o : obj) :
  heap w !! self = Some o -> is_payment_processor o = true ->
  process_payment self amount w =
    Ok tt (World (heap w) (stdin w)
             (stdout w ++ [payment_line o amount])).
Proof.
  intros H Hp. unfold process_payment, bind, deref. rewrite H.
  destruct o; try discriminate Hp; reflexivity.
Qed.

Lemma place_order_run (w : world) (self order : loc) (total x : float)
    (pp d : loc) (po : obj) (items : list string) (customer : string) :
  heap w !! self = Some (OrderService pp d) ->
  heap w !! order = Some (Order items customer) ->
  heap w !! pp = Some po -> is_payment_processor po = true ->
  apply_discount d total w = Ok x w ->
  place_order self order total w =
    Ok tt (World (heap w ++ [OrderRepository]) (stdin w)
             (stdout w ++ [total_line x; payment_line po x;
                           saved_line customer items])).
Proof.
  intros Hs Ho Hp Hpo Hd.
  unfold place_order, bind at 1, deref. rewrite Hs.
  unfold bind at 1. rewrite Hd.
  unfold bind at 1, print. cbn [heap stdin stdout].
  unfold bind at 1.
  erewrite process_payment_run by (cbn [heap]; eauto). cbn [heap stdin stdout].
  unfold bind at 1, new. cbn [heap stdin stdout].
  unfold save_order, bind, deref, print. cbn [heap stdin stdout].
  rewrite (lookup_old _ _ _ _ Ho). cbn [heap stdin stdout].
  rewrite <- !app_assoc. reflexivity.
Qed.

(** ** One run of [get_user_input] on well-formed answers *)

Ltac solve_lookup :=
  cbn [heap];
  solve [ repeat first [ apply lookup_new | apply lookup_old ] ].

Section SessionFacts.

Variable int_of_string : string -> option Z.
Variable float_of_string : string -> option float.

Abbreviation get_user_input := (get_user_input int_of_string float_of_string).
Abbreviation main := (main int_of_string float_of_string).
Abbreviation session := (session int_of_string float_of_string).
Abbreviation bad_number := (bad_number int_of_string float_of_string).

Lemma get_user_input_run (w : world) (customer line t p d : string)
    (rest : list string) (total : float) (payment_option discount_option : Z) :
  stdin w = customer :: line :: t :: p :: d :: rest ->
  float_of_string t = Some total ->
  int_of_string p = Some payment_option ->
  int_of_string d = Some discount_option ->
  get_user_input w =
    Ok tt (World
             (heap w ++ order_objects (length (heap w)) customer line
                          payment_option discount_option)
             rest
             (stdout w ++ order_output customer line total
                            payment_option discount_option)).
Proof.
  destruct w as [h si so]. cbn [stdin heap stdout]. intros -> Ht Hp Hd.
  cbv [get_user_input bind print input py_float py_int ret raise heap stdin stdout].
  rewrite Ht, Hp.
  unfold order_output, order_objects, chosen_payment, chosen_payment_warning,
    chosen_discount, chosen_discount_warning.
  destruct (payment_option =? 1)%Z, (payment_option =? 2)%Z;
    cbv [new bind print heap stdin stdout]; rewrite Hd;
    destruct (discount_option =? 1)%Z, (discount_option =? 2)%Z;
    cbv [new bind print ret heap stdin stdout];
    (erewrite place_order_run;
     [ | solve_lookup | solve_lookup | solve_lookup | reflexivity
       | first [ apply apply_discount_NoDiscount; solve_lookup
               | apply apply_discount_PercentageDiscount; solve_lookup ] ]);
    cbn [heap stdin stdout payment_line discounted];
    rewrite <- ?app_assoc, ?length_app; cbn [length app Nat.add];
    rewrite ?Nat.add_1_r; reflexivity.
Qed.

(** *** Runs of [get_user_input] that raise *)

Lemma get_user_input_bad_total (w : world) (customer line t : string)
    (rest : list string) :
  stdin w = customer :: line :: t :: rest ->
  float_of_string t = None ->
  get_user_input w =
    Raise ValueError (World (heap w) rest (stdout w ++ order_prompts)).
Proof.
  destruct w as [h si so]. cbn [stdin heap stdout]. intros -> Ht.
  cbv [get_user_input bind print input py_float py_int ret raise heap stdin stdout].
  rewrite Ht. unfold order_prompts. now rewrite <- !app_assoc.
Qed.

Lemma get_user_input_bad_payment (w : world) (customer line t p : string)
    (rest : list string) (total : float) :
  stdin w = customer :: line :: t :: p :: rest ->
  float_of_string t = Some total ->
  int_of_string p = None ->
  get_user_input w =
    Raise ValueError
      (World (heap w) rest (stdout w ++ order_prompts ++ payment_menu)).
Proof.
  destruct w as [h si so]. cbn [stdin heap stdout]. intros -> Ht Hp.
  cbv [get_user_input bind print input py_float py_int ret raise heap stdin stdout].
  rewrite Ht, Hp. unfold order_prompts, payment_menu. now rewrite <- !app_assoc.
Qed.

Lemma get_user_input_bad_discount (w : world) (customer line t p d : string)
    (rest : list string) (total : float) (payment_option : Z) :
  stdin w = customer :: line :: t :: p :: d :: rest ->
  float_of_string t = Some total ->
  int_of_string p = Some payment_option ->
  int_of_string d = None ->
  get_user_input w =
    Raise ValueError
      (World (heap w ++ [chosen_payment payment_option]) rest
         (stdout w ++ order_prompts ++ payment_menu ++
          chosen_payment_warning payment_option ++ discount_menu)).
Proof.
  destruct w as [h si so]. cbn [stdin heap stdout]. intros -> Ht Hp Hd.
  cbv [get_user_input bind print input py_float py_int ret raise heap stdin stdout].
  rewrite Ht, Hp.
  unfold chosen_payment, chosen_payment_warning, order_prompts, payment_menu,
    discount_menu.
  destruct (payment_option =? 1)%Z, (payment_option =? 2)%Z;
    cbv [new bind print heap stdin stdout]; rewrite Hd;
    now rewrite <- !app_assoc.
Qed.

(** Every run of [get_user_input] is of one of three kinds. *)
Lemma get_user_input_cases (w : world) :
  (exists customer line t p d rest total payment_option discount_option,
      stdin w = customer :: line :: t :: p :: d :: rest /\
      float_of_string t = Some total /\
      int_of_string p = Some payment_option /\
      int_of_string d = Some discount_option) \/
  (exists w', get_user_input w = Raise ValueError w' /\ bad_number (stdin w)) \/
  (exists w', get_user_input w = Raise EOFError w' /\
              (length (stdin w) < 5)%nat /\ stdin w' = []).
Proof.
  destruct (stdin w) as [|customer [|line [|t si]]] eqn:Hsi.
  1-3: right; right; destruct w as [h si' so]; cbn [stdin] in Hsi; subst si';
    cbv [get_user_input bind print input py_float py_int ret raise heap stdin stdout];
    eexists; split; [ reflexivity | cbn; split; [ lia | reflexivity ] ].
  destruct (float_of_string t) as [total|] eqn:Ht.
  2: { right; left. eexists. split.
       - eapply get_user_input_bad_total; eauto.
       - left. now exists customer, line, t, si. }
  destruct si as [|p si].
  { right; right. destruct w as [h si' so]. cbn [stdin] in Hsi. subst si'.
    cbv [get_user_input bind print input py_float py_int ret raise heap stdin stdout].
    rewrite Ht. eexists. split; [ reflexivity | cbn; split; [ lia | reflexivity ] ]. }
  destruct (int_of_string p) as [payment_option|] eqn:Hp.
  2: { right; left. eexists. split.
       - eapply get_user_input_bad_payment; eauto.
       - right; left. now exists customer, line, t, p, si. }
  destruct si as [|d si].
  { right; right. destruct w as [h si' so]. cbn [stdin] in Hsi. subst si'.
    cbv [get_user_input bind print input py_float py_int ret raise heap stdin stdout].
    rewrite Ht, Hp.
    destruct (payment_option =? 1)%Z, (payment_option =? 2)%Z;
      cbv [new bind print heap stdin stdout];
      (eexists; split; [ reflexivity | cbn; split; [ lia | reflexivity ] ]). }
  destruct (int_of_string d) as [discount_option|] eqn:Hd.
  2: { right; left. eexists. split.
       - eapply get_user_input_bad_discount; eauto.
       - right; right. now exists customer, line, t, p, d, si. }
  left. now exists customer, line, t, p, d, si, total, payment_option, discount_option.
Qed.

(** *** The loop *)

Lemma main_S (fuel : nat) (w : world) :
  main (S fuel) w =
    match get_user_input w with
    | Raise e w1 => Some (Raise e w1)
    | Ok _ w1 =>
        match input "Deseja fazer outro pedido? (s/n): " w1 with
        | Raise e w2 => Some (Raise e w2)
        | Ok answer w2 =>
            if negb (String.eqb (lower answer) "s")
            then Some (print [Txt "Obrigado por utilizar o sistema!"] w2)
            else main fuel w2
        end
    end.
Proof. reflexivity. Qed.

Lemma main_raise (fuel : nat) (w w1 : world) (e : exn) :
  get_user_input w = Raise e w1 ->
  main (S fuel) w = Some (Raise e w1).
Proof. intros H. rewrite main_S. now rewrite H. Qed.

Lemma main_eof (fuel : nat) (w w1 : world) (u : unit) :
  get_user_input w = Ok u w1 ->
  stdin w1 = [] ->
  main (S fuel) w =
    Some (Raise EOFError (World (heap w1) [] (stdout w1 ++ [continue_prompt]))).
Proof. intros H Hsi. rewrite main_S. rewrite H. unfold input. now rewrite Hsi. Qed.

Lemma main_step (fuel : nat) (w w1 : world) (u : unit) (answer : string)
    (rest : list string) :
  get_user_input w = Ok u w1 ->
  stdin w1 = answer :: rest ->
  main (S fuel) w =
    if negb (String.eqb (lower answer) "s")
    then Some (Ok tt (World (heap w1) rest
                        (stdout w1 ++ [continue_prompt; closing_line])))
    else main fuel (World (heap w1) rest (stdout w1 ++ [continue_prompt])).
Proof.
  intros H Hsi. rewrite main_S. rewrite H. unfold input. rewrite Hsi.
  destruct (negb (String.eqb (lower answer) "s")); [ | reflexivity ].
  unfold print. cbn [heap stdin stdout]. now rewrite <- app_assoc.
Qed.

(** One more unit of fuel than pending input lines is enough: the loop
    ends, normally or with an exception. *)
Lemma main_terminates (fuel : nat) :
  forall w : world, (length (stdin w) < fuel)%nat -> main fuel w <> None.
Proof.
  induction fuel as [|fuel IH]; intros w Hlen; [ lia | ].
  destruct (get_user_input_cases w)
    as [(c & l & t & p & d & rest & x & po & dop & Hsi & Ht & Hp & Hd)
       | [(w' & Hr & _) | (w' & Hr & _)]].
  - pose proof (get_user_input_run w c l t p d rest x po dop Hsi Ht Hp Hd) as Hrun.
    destruct rest as [|answer rest].
    + erewrite main_eof by (try exact Hrun; reflexivity). discriminate.
    + erewrite main_step by (try exact Hrun; reflexivity).
      destruct (negb _); [ discriminate | ].
      apply IH. cbn [stdin]. rewrite Hsi in Hlen. cbn [length] in Hlen. lia.
  - rewrite (main_raise _ _ _ _ Hr). discriminate.
  - rewrite (main_raise _ _ _ _ Hr). discriminate.
Qed.

Lemma session_eq (w : world) : session w = main (S (length (stdin w))) w.
Proof. reflexivity. Qed.

Lemma session_terminates (w : world) : session w <> None.
Proof. apply main_terminates. lia. Qed.

(** *** Counting saved orders *)

Lemma orders_saved_app (so so' : list out) :
  orders_saved (so ++ so') = (orders_saved so + orders_saved so')%nat.
Proof. unfold orders_saved. now rewrite List.filter_app, List.length_app. Qed.

Lemma orders_saved_order_output (customer line : string) (total : float)
    (payment_option discount_option : Z) :
  orders_saved (order_output customer line total payment_option discount_option)
  = 1%nat.
Proof.
  unfold order_output, chosen_payment_warning, chosen_discount_warning,
    chosen_payment, chosen_discount.
  destruct (payment_option =? 1)%Z, (payment_option =? 2)%Z,
    (discount_option =? 1)%Z, (discount_option =? 2)%Z; reflexivity.
Qed.

(** *** Lower case *)

Lemma lower_ascii_s (c : ascii) :
  lower_ascii c = "s"%char <-> c = "s"%char \/ c = "S"%char.
Proof.
  split.
  - destruct c as [[] [] [] [] [] [] [] []]; vm_compute; intros H;
      first [ discriminate H | now left | now right ].
  - intros [-> | ->]; reflexivity.
Qed.

Lemma lower_s (answer : string) :
  lower answer = "s" <-> answer = "s" \/ answer = "S".
Proof.
  split.
  - destruct answer as [|c [|c' r]]; cbn [lower]; intros H; try discriminate H.
    injection H as H. apply lower_ascii_s in H. destruct H as [-> | ->]; auto.
  - intros [-> | ->]; reflexivity.
Qed.

End SessionFacts.

(** * Binary64 arithmetic

    What [total * (1 - rate)] is worth in IEEE 754 binary64, from the
    specification of the primitive floats ([SpecFloat]): rounding to
    nearest keeps the sign, does not reach zero from a value in range,
    and stays below any representable bound of the exact value. *)

Section Binary64.
#[local] Open Scope Z_scope.

Lemma fexp64 (z : Z) : fexp prec emax z = Z.max (z - 53) (-1074).
Proof. reflexivity. Qed.

Lemma digits2_pos_bounds (m : positive) :
  2 ^ (Zpos (digits2_pos m) - 1) <= Zpos m < 2 ^ Zpos (digits2_pos m).
Proof.
  induction m as [m IH | m IH | ]; cbn [digits2_pos].
  - rewrite Pos2Z.inj_succ.
    replace (Z.succ (Zpos (digits2_pos m)) - 1) with (Z.succ (Zpos (digits2_pos m) - 1)) by lia.
    rewrite !Z.pow_succ_r by lia. lia.
  - rewrite Pos2Z.inj_succ.
    replace (Z.succ (Zpos (digits2_pos m)) - 1) with (Z.succ (Zpos (digits2_pos m) - 1)) by lia.
    rewrite !Z.pow_succ_r by lia. lia.
  - cbn. lia.
Qed.

Lemma iter_xO (d m : positive) : Zpos (Pos.iter xO m d) = Zpos m * 2 ^ Zpos d.
Proof.
  revert m. induction d as [|d IH] using Pos.peano_ind; intros m.
  - cbn. lia.
  - rewrite Pos.iter_succ, Pos2Z.inj_succ, Z.pow_succ_r by lia.
    specialize (IH m). lia.
Qed.

Lemma shl_align_spec (mx : positive) (ex ex' : Z) :
  ex' <= ex ->
  Zpos (fst (shl_align mx ex ex')) = Zpos mx * 2 ^ (ex - ex') /\
  snd (shl_align mx ex ex') = ex'.
Proof.
  intros H. unfold shl_align.
  destruct (ex' - ex) as [|p|p] eqn:E; try lia; cbn [fst snd].
  - replace (ex - ex') with 0 by lia. split; lia.
  - rewrite iter_xO. replace (ex - ex') with (Zpos p) by lia. split; lia.
Qed.

Lemma shl_align_noop (mx : positive) (ex ex' : Z) :
  ex <= ex' -> shl_align mx ex ex' = (mx, ex).
Proof.
  intros H. unfold shl_align. destruct (ex' - ex) as [|p|p] eqn:E; try lia; reflexivity.
Qed.

Lemma shifted_refl (a : shr_record) : 0 <= shr_m a -> shifted 0 a a.
Proof. intros H. unfold shifted. cbn. repeat split; try lia. now left. Qed.

Lemma shr_1_shifted (a : shr_record) : 0 <= shr_m a -> shifted 1 a (shr_1 a).
Proof.
  destruct a as [m r s]. cbn [shr_m]. intros H. unfold shifted, inexact.
  destruct m as [|[p|p|]|p]; try lia; destruct r, s; cbn; repeat split; try lia;
    intros; try discriminate; auto; right; lia.
Qed.

Lemma shifted_trans (j k : Z) (a b c : shr_record) :
  0 <= j -> 0 <= k -> shifted j a b -> shifted k b c -> shifted (j + k) a c.
Proof.
  intros Hj Hk (Hb & Hab & Iab) (Hc & Hbc & Ibc). unfold shifted.
  rewrite Z.pow_add_r by lia.
  pose proof (Z.pow_pos_nonneg 2 j ltac:(lia) Hj) as Pj.
  pose proof (Z.pow_pos_nonneg 2 k ltac:(lia) Hk) as Pk.
  remember (2 ^ j) as P. remember (2 ^ k) as Q.
  split; [ exact Hc | split; [ nia | ] ].
  intros Ic. destruct (Ibc Ic) as [Ib | Hlt].
  - destruct (Iab Ib) as [Ia | Hlt]; [ now left | right; nia ].
  - right. nia.
Qed.

Lemma iter_pos_shifted (p : positive) :
  forall a : shr_record,
    0 <= shr_m a -> shifted (Zpos p) a (@SpecFloat.iter_pos shr_record shr_1 p a).
Proof.
  induction p as [p IH | p IH | ]; intros a Ha; cbn [SpecFloat.iter_pos].
  - pose proof (shr_1_shifted a Ha) as H1.
    pose proof (IH _ (proj1 H1)) as H2.
    pose proof (IH _ (proj1 H2)) as H3.
    replace (Zpos p~1) with (1 + Zpos p + Zpos p) by lia.
    eapply shifted_trans; [ lia | lia | | exact H3 ].
    eapply shifted_trans; [ lia | lia | exact H1 | exact H2 ].
  - pose proof (IH _ Ha) as H2.
    pose proof (IH _ (proj1 H2)) as H3.
    replace (Zpos p~0) with (Zpos p + Zpos p) by lia.
    eapply shifted_trans; [ lia | lia | exact H2 | exact H3 ].
  - now apply shr_1_shifted.
Qed.

Lemma shr_fexp_spec (m e : Z) :
  0 <= m ->
  exists mrs : shr_record,
    shr_fexp prec emax m e loc_Exact
    = (mrs, e + Z.max 0 (fexp prec emax (Zdigits2 m + e) - e)) /\
    shifted (Z.max 0 (fexp prec emax (Zdigits2 m + e) - e))
      (Build_shr_record m false false) mrs.
Proof.
  intros Hm. unfold shr_fexp, shr. cbn [shr_record_of_loc].
  destruct (fexp prec emax (Zdigits2 m + e) - e) as [|p|p].
  - eexists. split; [ f_equal; lia | ]. now apply shifted_refl.
  - eexists. split; [ f_equal; lia | ].
    replace (Z.max 0 (Zpos p)) with (Zpos p) by lia. now apply iter_pos_shifted.
  - eexists. split; [ f_equal; lia | ]. now apply shifted_refl.
Qed.

Lemma round_nearest_even_spec (mrs : shr_record) :
  shr_m mrs <= round_nearest_even (shr_m mrs) (loc_of_shr_record mrs)
            <= shr_m mrs + 1 /\
  (round_nearest_even (shr_m mrs) (loc_of_shr_record mrs) = shr_m mrs + 1 ->
   inexact mrs = true).
Proof.
  destruct mrs as [m [] []]; cbn; try destruct (Z.even m); split; try lia; auto;
    intros; lia.
Qed.

Lemma binary_round_aux_spec (sx : bool) (m : positive) (e : Z) :
  exists k m1 m2 k' m3 : Z,
    k = Z.max 0 (fexp prec emax (Zpos (digits2_pos m) + e) - e) /\
    0 <= m1 /\ m1 * 2 ^ k <= Zpos m < (m1 + 1) * 2 ^ k /\
    m1 <= m2 <= m1 + 1 /\ (m2 = m1 + 1 -> m1 * 2 ^ k < Zpos m) /\
    k' = Z.max 0 (fexp prec emax (Zdigits2 m2 + (e + k)) - (e + k)) /\
    0 <= m3 /\ m3 * 2 ^ k' <= m2 < (m3 + 1) * 2 ^ k' /\
    binary_round_aux prec emax sx (Zpos m) e loc_Exact =
      match m3 with
      | Z0 => S754_zero sx
      | Zpos p =>
          if e + k + k' <=? emax - prec then S754_finite sx p (e + k + k')
          else S754_infinity sx
      | Zneg _ => S754_nan
      end.
Proof.
  unfold binary_round_aux.
  destruct (shr_fexp_spec (Zpos m) e ltac:(lia)) as (mrs1 & E1 & H1 & B1 & I1).
  cbn [Zdigits2] in E1, B1, I1. rewrite E1. cbn [shr_m] in B1, I1.
  destruct (round_nearest_even_spec mrs1) as [B2 I2].
  set (m2 := round_nearest_even (shr_m mrs1) (loc_of_shr_record mrs1)) in *.
  set (k := Z.max 0 (fexp prec emax (Zpos (digits2_pos m) + e) - e)) in *.
  destruct (shr_fexp_spec m2 (e + k) ltac:(lia)) as (mrs2 & E2 & H2 & B3 & _).
  rewrite E2. cbn [shr_m] in B3.
  exists k, (shr_m mrs1), m2, (Z.max 0 (fexp prec emax (Zdigits2 m2 + (e + k)) - (e + k))),
    (shr_m mrs2).
  repeat (split; [ first [ reflexivity | assumption | lia ] | ]).
  split.
  - intros Hm2. destruct (I1 (I2 Hm2)) as [Hi | Hlt]; [ discriminate Hi | exact Hlt ].
  - repeat (split; [ first [ reflexivity | assumption | lia ] | ]).
    reflexivity.
Qed.

Lemma bounded_spec (M : positive) (E : Z) :
  bounded prec emax M E = true ->
  Z.max (Zpos (digits2_pos M) + E - 53) (-1074) = E /\ E <= 971.
Proof.
  unfold bounded, canonical_mantissa. rewrite fexp64.
  intros H. apply andb_true_iff in H as [H1 H2].
  apply Z.eqb_eq in H1. apply Z.leb_le in H2. split; [ exact H1 | exact H2 ].
Qed.

Lemma pow2_pos (a : Z) : 0 <= a -> 0 < 2 ^ a.
Proof. intros H. now apply Z.pow_pos_nonneg. Qed.

Lemma pow2_lt_inv (a b : Z) : 0 <= b -> 2 ^ a < 2 ^ b -> a < b.
Proof. intros Hb H. apply (Z.pow_lt_mono_r_iff 2); [ lia | exact Hb | exact H ]. Qed.

Lemma pow2_le (a b : Z) : 0 <= a <= b -> 2 ^ a <= 2 ^ b.
Proof. intros H. apply Z.pow_le_mono_r; lia. Qed.

Lemma scale_le (a b P : Z) : 0 < P -> a * P <= b * P -> a <= b.
Proof. intros HP H. now apply Z.mul_le_mono_pos_r in H. Qed.

Lemma scale_lt (a b P : Z) : 0 < P -> a * P < b * P -> a < b.
Proof. intros HP H. now apply Z.mul_lt_mono_pos_r in H. Qed.

Lemma pow2_split (a b : Z) : 0 <= a -> 0 <= b -> 2 ^ (a + b) = 2 ^ a * 2 ^ b.
Proof. intros. now apply Z.pow_add_r. Qed.

(** The rounded value stays below a representable bound. *)
Lemma binary_round_aux_le (sx : bool) (m : positive) (e : Z) (M : positive) (E : Z) :
  bounded prec emax M E = true ->
  e <= E ->
  Zpos m <= Zpos M * 2 ^ (E - e) ->
  binary_round_aux prec emax sx (Zpos m) e loc_Exact = S754_zero sx \/
  exists (p : positive) (e' : Z),
    binary_round_aux prec emax sx (Zpos m) e loc_Exact = S754_finite sx p e' /\
    e' <= E /\ Zpos p <= Zpos M * 2 ^ (E - e').
Proof.
  intros Hb He Hle.
  destruct (bounded_spec M E Hb) as [HfE HE].
  destruct (binary_round_aux_spec sx m e)
    as (k & m1 & m2 & k' & m3 & Hk & Hm1 & B1 & B2 & I2 & Hk' & Hm3 & B3 & ->).
  rewrite fexp64 in Hk, Hk'.
  pose proof (digits2_pos_bounds m) as Pm.
  pose proof (digits2_pos_bounds M) as PM.
  set (dm := Zpos (digits2_pos m)) in *. set (dM := Zpos (digits2_pos M)) in *.
  assert (0 < dm) as Hdm by (subst dm; lia).
  assert (0 < dM) as HdM by (subst dM; lia).
  (* digits and exponent of the value are below those of the bound *)
  assert (dm + e <= dM + E) as Hd.
  { destruct (Z_le_gt_dec (dm + e) (dM + E)) as [|Hgt]; [ assumption | exfalso ].
    pose proof (pow2_split dM (E - e) ltac:(lia) ltac:(lia)) as Hp.
    replace (dM + (E - e)) with (dM + E - e) in Hp by lia.
    pose proof (pow2_le (dM + E - e) (dm - 1) ltac:(lia)) as Hc.
    pose proof (pow2_pos (E - e) ltac:(lia)) as HQ.
    assert (Zpos M * 2 ^ (E - e) < 2 ^ dM * 2 ^ (E - e)) as Hlt
        by (apply Z.mul_lt_mono_pos_r; [ exact HQ | apply PM ]).
    lia. }
  assert (e + k <= E) as He1 by lia.
  assert (-1074 <= e + k) as Hmin by lia.
  assert (0 <= k) as Hk0 by lia.
  (* the first rounding stays below the bound *)
  assert (m2 <= Zpos M * 2 ^ (E - (e + k))) as Hm2.
  { pose proof (pow2_split (E - (e + k)) k ltac:(lia) Hk0) as Hp.
    replace (E - (e + k) + k) with (E - e) in Hp by lia.
    pose proof (pow2_pos k Hk0) as HP.
    rewrite Hp, Z.mul_assoc in Hle.
    destruct (Z.eq_dec m2 (m1 + 1)) as [Heq | Hne].
    - specialize (I2 Heq).
      assert (m1 < Zpos M * 2 ^ (E - (e + k))) by (apply (scale_lt _ _ _ HP); lia).
      lia.
    - assert (m1 <= Zpos M * 2 ^ (E - (e + k))) by (apply (scale_le _ _ _ HP); lia).
      lia. }
  destruct m3 as [|p|p]; [ now left | right | lia ].
  assert (0 <= k') as Hk'0 by lia.
  pose proof (pow2_pos k' Hk'0) as Pk'.
  assert (0 < m2) as Hm2pos.
  { assert (0 < Zpos p * 2 ^ k') by (apply Z.mul_pos_pos; lia). lia. }
  destruct m2 as [|p2|p2]; try lia. cbn [Zdigits2] in Hk'.
  pose proof (digits2_pos_bounds p2) as P2.
  set (d2 := Zpos (digits2_pos p2)) in *.
  assert (0 < d2) as Hd2 by (subst d2; lia).
  assert (M' : Zpos M < 2 ^ 53).
  { pose proof (pow2_le dM 53 ltac:(lia)). lia. }
  assert (e + k + k' <= E) as He2.
  { destruct (Z.eq_dec k' 0) as [-> | Hne]; [ lia | ].
    assert (k' = d2 - 53) as Hk'eq by lia.
    pose proof (pow2_split 53 (E - (e + k)) ltac:(lia) ltac:(lia)) as Hp.
    pose proof (pow2_pos (E - (e + k)) ltac:(lia)) as HQ.
    assert (Zpos M * 2 ^ (E - (e + k)) < 2 ^ 53 * 2 ^ (E - (e + k))) as Hlt'
        by (apply Z.mul_lt_mono_pos_r; [ exact HQ | exact M' ]).
    assert (2 ^ (d2 - 1) < 2 ^ (53 + (E - (e + k)))) as Hlt by lia.
    apply pow2_lt_inv in Hlt; lia. }
  exists p, (e + k + k'). split; [ | split; [ exact He2 | ] ].
  - replace (e + k + k' <=? emax - prec) with true; [ reflexivity | ].
    symmetry. apply Z.leb_le. change (emax - prec) with 971. lia.
  - pose proof (pow2_split (E - (e + k + k')) k' ltac:(lia) Hk'0) as Hp.
    replace (E - (e + k + k') + k') with (E - (e + k)) in Hp by lia.
    rewrite Hp, Z.mul_assoc in Hm2.
    apply (scale_le _ _ _ Pk'). lia.
Qed.

Lemma binary_round_aux_sign (sx : bool) (m : positive) (e : Z) :
  has_sign sx (binary_round_aux prec emax sx (Zpos m) e loc_Exact).
Proof.
  destruct (binary_round_aux_spec sx m e)
    as (k & m1 & m2 & k' & m3 & _ & _ & _ & _ & _ & _ & Hm3 & _ & ->).
  destruct m3 as [|p|p]; [ reflexivity | | lia ].
  destruct (e + k + k' <=? emax - prec); reflexivity.
Qed.

(** Rounding does not reach zero from an exponent in range. *)
Lemma binary_round_aux_nonzero (sx : bool) (m : positive) (e : Z) :
  -1074 <= e ->
  is_zero_sf (binary_round_aux prec emax sx (Zpos m) e loc_Exact) = false.
Proof.
  intros He.
  destruct (binary_round_aux_spec sx m e)
    as (k & m1 & m2 & k' & m3 & Hk & Hm1 & B1 & B2 & I2 & Hk' & Hm3 & B3 & ->).
  rewrite fexp64 in Hk, Hk'.
  pose proof (digits2_pos_bounds m) as Pm.
  set (dm := Zpos (digits2_pos m)) in *.
  assert (0 < dm) as Hdm by (subst dm; lia).
  assert (0 <= k <= dm - 1) as Hk0 by lia.
  pose proof (pow2_pos k ltac:(lia)) as Pk.
  pose proof (pow2_le k (dm - 1) Hk0) as Pk'.
  assert (0 < m1) as Hm1pos.
  { assert (1 * 2 ^ k < (m1 + 1) * 2 ^ k) as H by lia.
    apply (scale_lt _ _ _ Pk) in H. lia. }
  destruct m2 as [|p2|p2]; try lia. cbn [Zdigits2] in Hk'.
  pose proof (digits2_pos_bounds p2) as P2.
  set (d2 := Zpos (digits2_pos p2)) in *.
  assert (0 < d2) as Hd2 by (subst d2; lia).
  assert (0 <= k' <= d2 - 1) as Hk'0 by lia.
  pose proof (pow2_pos k' ltac:(lia)) as Qk.
  pose proof (pow2_le k' (d2 - 1) Hk'0) as Qk'.
  assert (0 < m3) as Hm3pos.
  { assert (1 * 2 ^ k' < (m3 + 1) * 2 ^ k') as H by lia.
    apply (scale_lt _ _ _ Qk) in H. lia. }
  destruct m3 as [|p|p]; try lia.
  destruct (e + k + k' <=? emax - prec); reflexivity.
Qed.

Lemma shl_align_min (mx : positive) (ex f : Z) :
  Zpos (fst (shl_align mx ex f)) = Zpos mx * 2 ^ (ex - Z.min ex f) /\
  snd (shl_align mx ex f) = Z.min ex f.
Proof.
  destruct (Z_le_gt_dec f ex) as [Hle | Hgt].
  - replace (Z.min ex f) with f by lia. now apply shl_align_spec.
  - rewrite shl_align_noop by lia. cbn [fst snd].
    replace (Z.min ex f) with ex by lia. rewrite Z.sub_diag. split; lia.
Qed.

Lemma binary_round_eq (sx : bool) (mx : positive) (ex : Z) :
  binary_round prec emax sx mx ex =
    binary_round_aux prec emax sx
      (Zpos (fst (shl_align mx ex (fexp prec emax (Zpos (digits2_pos mx) + ex)))))
      (snd (shl_align mx ex (fexp prec emax (Zpos (digits2_pos mx) + ex))))
      loc_Exact.
Proof.
  unfold binary_round.
  now destruct (shl_align mx ex (fexp prec emax (Zpos (digits2_pos mx) + ex))).
Qed.

Lemma binary_round_sign (sx : bool) (mx : positive) (ex : Z) :
  has_sign sx (binary_round prec emax sx mx ex).
Proof. rewrite binary_round_eq. apply binary_round_aux_sign. Qed.

Lemma binary_round_nonzero (sx : bool) (mx : positive) (ex : Z) :
  -1074 <= ex ->
  is_zero_sf (binary_round prec emax sx mx ex) = false.
Proof.
  intros He. rewrite binary_round_eq. apply binary_round_aux_nonzero.
  rewrite (proj2 (shl_align_min _ _ _)), fexp64. lia.
Qed.

Lemma binary_round_le (sx : bool) (mx : positive) (ex : Z) (M : positive) (E : Z) :
  bounded prec emax M E = true ->
  ex <= E ->
  Zpos mx <= Zpos M * 2 ^ (E - ex) ->
  binary_round prec emax sx mx ex = S754_zero sx \/
  exists (p : positive) (e' : Z),
    binary_round prec emax sx mx ex = S754_finite sx p e' /\
    e' <= E /\ Zpos p <= Zpos M * 2 ^ (E - e').
Proof.
  intros Hb He Hle. rewrite binary_round_eq.
  destruct (shl_align_min mx ex (fexp prec emax (Zpos (digits2_pos mx) + ex)))
    as [Hm Hs].
  set (ez := snd _) in *. set (mz := fst _) in *.
  assert (ez <= ex) as Hez by lia.
  apply binary_round_aux_le; [ exact Hb | lia | ].
  rewrite Hm, <- Hs.
  pose proof (pow2_split (E - ex) (ex - ez) ltac:(lia) ltac:(lia)) as Hp.
  replace (E - ex + (ex - ez)) with (E - ez) in Hp by lia.
  rewrite Hp, Z.mul_assoc.
  apply Z.mul_le_mono_nonneg_r; [ | exact Hle ].
  apply Z.lt_le_incl, pow2_pos. lia.
Qed.

Lemma bounded_one : bounded prec emax 4503599627370496 (-52) = true.
Proof. reflexivity. Qed.

Lemma binary_normalize_neg (q : positive) (ez : Z) (M : positive) (E : Z) :
  bounded prec emax M E = true ->
  -1074 <= ez <= E ->
  Zpos q <= Zpos M * 2 ^ (E - ez) ->
  exists (p : positive) (e' : Z),
    binary_normalize prec emax (Zneg q) ez false = S754_finite true p e'.
Proof.
  intros Hb He Hle. cbn [binary_normalize].
  pose proof (binary_round_nonzero true q ez ltac:(lia)) as Hnz.
  destruct (binary_round_le true q ez M E Hb ltac:(lia) Hle) as [Hz | (p & e' & Hf & _)].
  - rewrite Hz in Hnz. discriminate Hnz.
  - now exists p, e'.
Qed.

Lemma binary_normalize_pos (q : positive) (ez : Z) (M : positive) (E : Z) :
  bounded prec emax M E = true ->
  -1074 <= ez <= E ->
  Zpos q <= Zpos M * 2 ^ (E - ez) ->
  exists (p : positive) (e' : Z),
    binary_normalize prec emax (Zpos q) ez false = S754_finite false p e' /\
    e' <= E /\ Zpos p <= Zpos M * 2 ^ (E - e').
Proof.
  intros Hb He Hle. cbn [binary_normalize].
  pose proof (binary_round_nonzero false q ez ltac:(lia)) as Hnz.
  destruct (binary_round_le false q ez M E Hb ltac:(lia) Hle) as [Hz | (p & e' & Hf & H)].
  - rewrite Hz in Hnz. discriminate Hnz.
  - now exists p, e'.
Qed.

(** [1 - r] for a positive finite [r], by the order of [1] and [r]. *)
Lemma sub_one_finite (m : positive) (e : Z) :
  bounded prec emax m e = true ->
  match SFcompare SF_one (S754_finite false m e) with
  | Some Eq =>
      SF64sub SF_one (S754_finite false m e) = S754_zero false /\
      S754_finite false m e = SF_one
  | Some Lt =>
      exists (p : positive) (e' : Z),
        SF64sub SF_one (S754_finite false m e) = S754_finite true p e'
  | Some Gt =>
      exists (p : positive) (e' : Z),
        SF64sub SF_one (S754_finite false m e) = S754_finite false p e' /\
        e' <= -52 /\ Zpos p <= 4503599627370496 * 2 ^ (-52 - e')
  | None => False
  end.
Proof.
  intros Hb. destruct (bounded_spec m e Hb) as [Hfe He].
  pose proof (digits2_pos_bounds m) as Pm.
  set (dm := Zpos (digits2_pos m)) in *.
  assert (0 < dm) as Hdm by (subst dm; lia).
  unfold SF_one, SF64sub, SFsub, SFcompare. cbn [cond_Zopp].
  destruct (Z.compare_spec (-52) e) as [Heq | Hlt | Hgt].
  - (* same exponent *)
    subst e. change (Z.min (-52) (-52)) with (-52).
    rewrite !shl_align_noop by lia. cbn [fst].
    change (Pos.compare_cont Eq 4503599627370496 m)
      with (Zpos 4503599627370496 ?= Zpos m).
    destruct (Z.compare_spec (Zpos 4503599627370496) (Zpos m)) as [Hm | Hm | Hm].
    + injection Hm as <-. split; reflexivity.
    + destruct (Zpos 4503599627370496 - Zpos m) as [|q|q] eqn:HD; [ lia | lia | ].
      apply (binary_normalize_neg q (-52) m (-52) Hb); [ lia | ].
      rewrite Z.sub_diag. lia.
    + destruct (Zpos 4503599627370496 - Zpos m) as [|q|q] eqn:HD; [ lia | | lia ].
      apply (binary_normalize_pos q (-52) 4503599627370496 (-52) bounded_one); [ lia | ].
      rewrite Z.sub_diag. lia.
  - (* r has the larger exponent, hence 53 digits *)
    replace (Z.min (-52) e) with (-52) by lia.
    rewrite (shl_align_noop 4503599627370496) by lia. cbn [fst].
    destruct (shl_align_spec m e (-52) ltac:(lia)) as [Hb' _]. rewrite Hb'.
    assert (dm = 53) as Hd by lia.
    rewrite Hd in Pm. change (2 ^ (53 - 1)) with 4503599627370496 in Pm.
    pose proof (pow2_le 1 (e - -52) ltac:(lia)) as Hp. change (2 ^ 1) with 2 in Hp.
    assert (2 * Zpos m <= Zpos m * 2 ^ (e - -52)) as Hbig.
    { rewrite (Z.mul_comm 2). apply Z.mul_le_mono_nonneg_l; lia. }
    destruct (Zpos 4503599627370496 - Zpos m * 2 ^ (e - -52)) as [|q|q] eqn:HD;
      [ lia | lia | ].
    apply (binary_normalize_neg q (-52) m e Hb); [ lia | ]. lia.
  - (* r has the smaller exponent *)
    replace (Z.min (-52) e) with e by lia.
    rewrite (shl_align_noop m) by lia. cbn [fst].
    destruct (shl_align_spec 4503599627370496 (-52) e ltac:(lia)) as [Ha _]. rewrite Ha.
    assert (Zpos m < 2 ^ 53) as Hm.
    { pose proof (pow2_le dm 53 ltac:(lia)). lia. }
    pose proof (pow2_le 1 (-52 - e) ltac:(lia)) as Hp. change (2 ^ 1) with 2 in Hp.
    assert (4503599627370496 * 2 <= 4503599627370496 * 2 ^ (-52 - e)) as Hbig
        by (apply Z.mul_le_mono_nonneg_l; lia).
    change (2 ^ 53) with 9007199254740992 in Hm.
    destruct (4503599627370496 * 2 ^ (-52 - e) - Zpos m) as [|q|q] eqn:HD;
      [ lia | | lia ].
    apply (binary_normalize_pos q e 4503599627370496 (-52) bounded_one); [ lia | ]. lia.
Qed.

Lemma SFleb_neg_pos (y z : spec_float) :
  has_sign true y -> has_sign false z -> SFleb y z = true.
Proof.
  destruct y as [[]|[]| |[] ? ?], z as [[]|[]| |[] ? ?]; cbn;
    intros Hy Hz; try reflexivity; try discriminate; contradiction.
Qed.

Lemma SFleb_finite_le (p M : positive) (e' E : Z) :
  e' <= E -> Zpos p <= Zpos M * 2 ^ (E - e') ->
  SFleb (S754_finite false p e') (S754_finite false M E) = true.
Proof.
  intros He Hle. unfold SFleb, SFcompare.
  destruct (Z.compare_spec e' E) as [Heq | Hlt | Hgt]; [ | reflexivity | lia ].
  subst e'. rewrite Z.sub_diag in Hle.
  change (Pos.compare_cont Eq p M) with (Zpos p ?= Zpos M).
  destruct (Z.compare_spec (Zpos p) (Zpos M)); try reflexivity. lia.
Qed.

(** A positive finite number times a positive factor that is at most one. *)
Lemma mul_pos_le (mt : positive) (et : Z) (p : positive) (e' : Z) :
  bounded prec emax mt et = true ->
  e' <= -52 -> Zpos p <= 4503599627370496 * 2 ^ (-52 - e') ->
  SFleb (SF64mul (S754_finite false mt et) (S754_finite false p e'))
        (S754_finite false mt et) = true.
Proof.
  intros Hb He Hp. unfold SF64mul, SFmul. cbn [xorb].
  assert (Zpos p <= 2 ^ (- e')) as Hp'.
  { pose proof (pow2_split 52 (-52 - e') ltac:(lia) ltac:(lia)) as H.
    replace (52 + (-52 - e')) with (- e') in H by lia.
    change (2 ^ 52) with 4503599627370496 in H. lia. }
  destruct (binary_round_aux_le false (mt * p) (et + e') mt et Hb ltac:(lia))
    as [Hz | (q & e'' & Hf & He'' & Hq)].
  - replace (et - (et + e')) with (- e') by lia.
    rewrite Pos2Z.inj_mul. apply Z.mul_le_mono_nonneg_l; lia.
  - now rewrite Hz.
  - rewrite Hf. now apply SFleb_finite_le.
Qed.

Lemma mul_pos_neg_sign (mt : positive) (et : Z) (p : positive) (e' : Z) :
  has_sign true (SF64mul (S754_finite false mt et) (S754_finite true p e')).
Proof. unfold SF64mul, SFmul. cbn [xorb]. apply binary_round_aux_sign. Qed.

(** [total * (1 - rate) <= total] in binary64, for [0 <= total] and
    [0 < rate], apart from the two products that are NaN. *)
Lemma SF_discount_le (T R : spec_float) :
  valid_binary T = true -> valid_binary R = true ->
  SFleb (S754_zero false) T = true ->
  SFltb (S754_zero false) R = true ->
  ~ (T = S754_infinity false /\ R = SF_one) ->
  ~ (is_zero_sf T = true /\ R = S754_infinity false) ->
  SFleb (SF64mul T (SF64sub SF_one R)) T = true.
Proof.
  intros HT HR H0T H0R Hex1 Hex2.
  destruct R as [sr | [] | | [] m e]; try discriminate H0R.
  - (* rate = +inf *)
    destruct T as [st | [] | | [] mt et]; try discriminate H0T; try reflexivity.
    exfalso. apply Hex2. now split.
  - (* rate finite *)
    cbn [valid_binary] in HR. pose proof (sub_one_finite m e HR) as Hsub.
    destruct (SFcompare SF_one (S754_finite false m e)) as [[] | ];
      [ destruct Hsub as [Hx HR1] | destruct Hsub as (p & e' & Hx)
      | destruct Hsub as (p & e' & Hx & He' & Hp) | contradiction ];
      rewrite Hx.
    + destruct T as [st | [] | | [] mt et]; try discriminate H0T.
      * now destruct st.
      * exfalso. apply Hex1. now split.
      * reflexivity.
    + destruct T as [st | [] | | [] mt et]; try discriminate H0T.
      * now destruct st.
      * reflexivity.
      * apply SFleb_neg_pos; [ apply mul_pos_neg_sign | reflexivity ].
    + destruct T as [st | [] | | [] mt et]; try discriminate H0T.
      * now destruct st.
      * reflexivity.
      * now apply mul_pos_le.
Qed.

(** [total * (1 - rate) <= 0] in binary64, for [0 < total] and
    [1 <= rate], apart from the product that is NaN. *)
Lemma SF_discount_nonpos (T R : spec_float) :
  valid_binary T = true -> valid_binary R = true ->
  SFltb (S754_zero false) T = true ->
  SFleb SF_one R = true ->
  ~ (T = S754_infinity false /\ R = SF_one) ->
  SFleb (SF64mul T (SF64sub SF_one R)) (S754_zero false) = true.
Proof.
  intros HT HR H0T H1R Hex.
  destruct R as [sr | [] | | [] m e]; try discriminate H1R.
  - (* rate = +inf *)
    destruct T as [st | [] | | [] mt et]; try discriminate H0T; reflexivity.
  - (* rate finite *)
    cbn [valid_binary] in HR. pose proof (sub_one_finite m e HR) as Hsub.
    unfold SFleb in H1R.
    destruct (SFcompare SF_one (S754_finite false m e)) as [[] | ];
      try discriminate H1R;
      [ destruct Hsub as [Hx HR1] | destruct Hsub as (p & e' & Hx) ];
      rewrite Hx.
    + destruct T as [st | [] | | [] mt et]; try discriminate H0T.
      * exfalso. apply Hex. now split.
      * reflexivity.
    + destruct T as [st | [] | | [] mt et]; try discriminate H0T.
      * reflexivity.
      * apply SFleb_neg_pos; [ apply mul_pos_neg_sign | reflexivity ].
Qed.

End Binary64.

Lemma Prim2SF_one : Prim2SF 1 = SF_one.
Proof. reflexivity. Qed.

Lemma Prim2SF_zero : Prim2SF 0 = S754_zero false.
Proof. reflexivity. Qed.

Lemma Prim2SF_infinity : Prim2SF infinity = S754_infinity false.
Proof. reflexivity. Qed.

Lemma Prim2SF_discount (total rate : float) :
  Prim2SF (total * (1 - rate)) =
    SF64mul (Prim2SF total) (SF64sub SF_one (Prim2SF rate)).
Proof. now rewrite FloatAxioms.mul_spec, FloatAxioms.sub_spec, Prim2SF_one. Qed.

Lemma not_inf_and_one (total rate : float) :
  ((total =? infinity) && (rate =? 1))%float = false ->
  ~ (Prim2SF total = S754_infinity false /\ Prim2SF rate = SF_one).
Proof.
  intros H [HT HR]. rewrite !FloatAxioms.eqb_spec, HT, HR in H. discriminate H.
Qed.

Lemma not_zero_and_inf (total rate : float) :
  ((total =? 0) && (rate =? infinity))%float = false ->
  ~ (is_zero_sf (Prim2SF total) = true /\ Prim2SF rate = S754_infinity false).
Proof.
  intros H [HT HR]. rewrite !FloatAxioms.eqb_spec, HR in H.
  destruct (Prim2SF total) as [[]| | |]; discriminate.
Qed.

Lemma discount_le (total rate : float) :
  (0 <=? total)%float = true ->
  (0 <? rate)%float = true ->
  ((total =? infinity) && (rate =? 1))%float = false ->
  ((total =? 0) && (rate =? infinity))%float = false ->
  (total * (1 - rate) <=? total)%float = true.
Proof.
  intros Ht Hr H1 H2. rewrite FloatAxioms.leb_spec in Ht. rewrite FloatAxioms.ltb_spec in Hr.
  rewrite FloatAxioms.leb_spec, Prim2SF_discount.
  apply SF_discount_le; try apply Prim2SF_valid; try assumption.
  - now apply not_inf_and_one.
  - now apply not_zero_and_inf.
Qed.

Lemma discount_nonpos (total rate : float) :
  (0 <? total)%float = true ->
  (1 <=? rate)%float = true ->
  ((total =? infinity) && (rate =? 1))%float = false ->
  (total * (1 - rate) <=? 0)%float = true.
Proof.
  intros Ht Hr H1. rewrite FloatAxioms.ltb_spec in Ht. rewrite FloatAxioms.leb_spec, Prim2SF_one in Hr.
  rewrite FloatAxioms.leb_spec, Prim2SF_discount.
  apply SF_discount_nonpos; try apply Prim2SF_valid; try assumption.
  now apply not_inf_and_one.
Qed.

(** * The claims about the strategies and [OrderService] *)

(** C3. [place_order] always runs the same four steps in the same order:
    on a service holding a payment processor and a discount, it computes
    the discounted total with the discount's [apply_discount], prints
    that discounted total, has the payment processor process the
    discounted total (the line written is the one [process_payment]
    writes for the discounted total, not for [total]), and has a new
    repository save the order.  The console receives exactly these three
    lines, whatever the classes of the two strategies. *)
Theorem place_order_sequence (w : world) (self order : loc) (total : float)
    (pp d : loc) (po dobj : obj) (items : list string) (customer : string) :
  heap w !! self = Some (OrderService pp d) ->
  heap w !! order = Some (Order items customer) ->
  heap w !! pp = Some po -> is_payment_processor po = true ->
  heap w !! d = Some dobj -> is_discount dobj = true ->
  exists (discounted_total : float) (payment : out),
    apply_discount d total w = Ok discounted_total w /\
    (forall w0 : world, heap w0 !! pp = Some po ->
       process_payment pp discounted_total w0 =
         Ok tt (World (heap w0) (stdin w0) (stdout w0 ++ [payment]))) /\
    place_order self order total w =
      Ok tt (World (heap w ++ [OrderRepository]) (stdin w)
               (stdout w ++ [total_line discounted_total; payment;
                             saved_line customer items])).
Proof.
  intros Hs Ho Hp Hpo Hd Hdo.
  destruct (apply_discount_pure w d total dobj Hd Hdo) as [x Hx].
  exists x, (payment_line po x). split; [ exact Hx | split ].
  - intros w0 H0. now apply process_payment_run.
  - eapply place_order_run; eauto.
Qed.

Lemma place_order_sequence_witness :
  exists (discounted_total : float) (payment : out),
    apply_discount 1 100
      (World [PixPayment; PercentageDiscount 0.1; Order ["bread"; "milk"] "Ana";
              OrderService 0 1] [] [])
    = Ok discounted_total
        (World [PixPayment; PercentageDiscount 0.1; Order ["bread"; "milk"] "Ana";
                OrderService 0 1] [] []) /\
    place_order 3 2 100
      (World [PixPayment; PercentageDiscount 0.1; Order ["bread"; "milk"] "Ana";
              OrderService 0 1] [] [])
    = Ok tt (World [PixPayment; PercentageDiscount 0.1;
                    Order ["bread"; "milk"] "Ana"; OrderService 0 1;
                    OrderRepository] []
               [total_line discounted_total; payment;
                saved_line "Ana" ["bread"; "milk"]]).
Proof.
  destruct (place_order_sequence
              (World [PixPayment; PercentageDiscount 0.1;
                      Order ["bread"; "milk"] "Ana"; OrderService 0 1] [] [])
              3 2 100 0 1 PixPayment (PercentageDiscount 0.1)
              ["bread"; "milk"] "Ana"
              eq_refl eq_refl eq_refl eq_refl eq_refl eq_refl)
    as (x & pay & H1 & _ & H2).
  exists x, pay. split; [ exact H1 | exact H2 ].
Defined.

(** C6. [NoDiscount.apply_discount] is the identity: it returns the total
    it is given and changes nothing, so applying it to its own result
    gives what one application gives. *)
Theorem NoDiscount_identity (w : world) (self : loc) (total : float) :
  heap w !! self = Some NoDiscount ->
  apply_discount self total w = Ok total w /\
  (x <- apply_discount self total ;; apply_discount self x) w =
    apply_discount self total w.
Proof.
  intros H. pose proof (apply_discount_NoDiscount w self total H) as H1.
  split; [ exact H1 | ]. unfold bind at 1. now rewrite H1.
Qed.

Lemma NoDiscount_identity_witness :
  apply_discount 0 50 (World [NoDiscount] [] []) = Ok 50%float (World [NoDiscount] [] []) /\
  (x <- apply_discount 0 50 ;; apply_discount 0 x) (World [NoDiscount] [] []) =
    apply_discount 0 50 (World [NoDiscount] [] []).
Proof. apply (NoDiscount_identity (World [NoDiscount] [] []) 0 50). reflexivity. Defined.

(** C4, as the code has it.  [PercentageDiscount(rate).apply_discount]
    returns [total * (1 - rate)] for every total and every rate; no rate
    is rejected.  For a total above zero and a rate of at least 1 the
    result is zero or negative, except that an infinite total with rate
    exactly 1 gives [inf * 0], which is NaN. *)
Theorem PercentageDiscount_apply (w : world) (self : loc) (rate total : float) :
  heap w !! self = Some (PercentageDiscount rate) ->
  apply_discount self total w = Ok (total * (1 - rate))%float w /\
  ((0 <? total)%float = true ->
   (1 <=? rate)%float = true ->
   ((total =? infinity) && (rate =? 1))%float = false ->
   (total * (1 - rate) <=? 0)%float = true).
Proof.
  intros H. split.
  - now apply apply_discount_PercentageDiscount.
  - apply discount_nonpos.
Qed.

Lemma PercentageDiscount_apply_witness :
  apply_discount 0 100 (World [PercentageDiscount 1.5] [] [])
  = Ok (-50)%float (World [PercentageDiscount 1.5] [] []) /\
  (100 * (1 - 1.5) <=? 0)%float = true.
Proof.
  destruct (PercentageDiscount_apply (World [PercentageDiscount 1.5] [] []) 0
              1.5 100 eq_refl) as [H1 H2].
  split; [ exact H1 | apply H2; reflexivity ].
Defined.

(** C4 as stated fails: the total [inf] is above zero, the rate 1 is at
    least 1, and the discounted total is NaN, neither zero nor negative. *)
Lemma infinite_total_full_discount_is_nan :
  (0 <? infinity)%float = true /\
  (1 <=? 1)%float = true /\
  apply_discount 0 infinity (World [PercentageDiscount 1] [] [])
  = Ok nan (World [PercentageDiscount 1] [] []) /\
  (nan <=? 0)%float = false.
Proof. repeat split. Qed.

(** C5, as the code has it.  For a total of at least zero and a rate
    above zero, the discounted total is at most the total, apart from the
    two products that are NaN: an infinite total with rate 1, and a zero
    total with an infinite rate.  (Below zero the discount raises the
    total.) *)
Theorem PercentageDiscount_lowers (w : world) (self : loc) (rate total : float) :
  heap w !! self = Some (PercentageDiscount rate) ->
  (0 <=? total)%float = true ->
  (0 <? rate)%float = true ->
  ((total =? infinity) && (rate =? 1))%float = false ->
  ((total =? 0) && (rate =? infinity))%float = false ->
  exists x : float,
    apply_discount self total w = Ok x w /\ (x <=? total)%float = true.
Proof.
  intros H Ht Hr H1 H2. exists (total * (1 - rate))%float. split.
  - now apply apply_discount_PercentageDiscount.
  - now apply discount_le.
Qed.

Lemma PercentageDiscount_lowers_witness :
  exists x : float,
    apply_discount 0 100 (World [PercentageDiscount 0.1] [] [])
    = Ok x (World [PercentageDiscount 0.1] [] []) /\
    (x <=? 100)%float = true.
Proof.
  apply (PercentageDiscount_lowers (World [PercentageDiscount 0.1] [] []) 0 0.1 100);
    reflexivity.
Defined.

(** C5 as stated fails: at the rate 0.1 the total -100 becomes -90,
    which is above it. *)
Lemma negative_total_is_raised :
  (0 <? 0.1)%float = true /\
  apply_discount 0 (-100) (World [PercentageDiscount 0.1] [] [])
  = Ok (-90)%float (World [PercentageDiscount 0.1] [] []) /\
  (-90 <=? -100)%float = false.
Proof. repeat split. Qed.

(** C10. [place_order] changes no object: after the call the order has
    the items and the customer it had, the discount its rate, the payment
    processor its class, and the service holds the same two strategies;
    every object that existed is as it was.  The pending input is
    untouched, and the console has only grown, by the lines written. *)
Theorem place_order_frame (w : world) (self order : loc) (total : float)
    (pp d : loc) (po dobj : obj) (items : list string) (customer : string) :
  heap w !! self = Some (OrderService pp d) ->
  heap w !! order = Some (Order items customer) ->
  heap w !! pp = Some po -> is_payment_processor po = true ->
  heap w !! d = Some dobj -> is_discount dobj = true ->
  exists (w' : world) (written : list out),
    place_order self order total w = Ok tt w' /\
    heap w' !! order = Some (Order items customer) /\
    heap w' !! d = Some dobj /\
    heap w' !! pp = Some po /\
    heap w' !! self = Some (OrderService pp d) /\
    (forall (l : loc) (o : obj), heap w !! l = Some o -> heap w' !! l = Some o) /\
    stdin w' = stdin w /\
    stdout w' = stdout w ++ written.
Proof.
  intros Hs Ho Hp Hpo Hd Hdo.
  destruct (apply_discount_pure w d total dobj Hd Hdo) as [x Hx].
  eexists. eexists. split.
  - eapply place_order_run; eauto.
  - cbn [heap stdin stdout].
    repeat split; try (now apply lookup_old).
Qed.

Lemma place_order_frame_witness :
  exists (w' : world) (written : list out),
    place_order 3 2 100
      (World [PixPayment; PercentageDiscount 0.1; Order ["bread"; "milk"] "Ana";
              OrderService 0 1] ["s"] [closing_line]) = Ok tt w' /\
    heap w' !! 2%nat = Some (Order ["bread"; "milk"] "Ana") /\
    heap w' !! 1%nat = Some (PercentageDiscount 0.1) /\
    heap w' !! 0%nat = Some PixPayment /\
    heap w' !! 3%nat = Some (OrderService 0 1) /\
    stdin w' = ["s"] /\
    stdout w' = closing_line :: written.
Proof.
  destruct (place_order_frame
              (World [PixPayment; PercentageDiscount 0.1;
                      Order ["bread"; "milk"] "Ana"; OrderService 0 1]
                 ["s"] [closing_line])
              3 2 100 0 1 PixPayment (PercentageDiscount 0.1)
              ["bread"; "milk"] "Ana"
              eq_refl eq_refl eq_refl eq_refl eq_refl eq_refl)
    as (w' & written & H & H1 & H2 & H3 & H4 & _ & H5 & H6).
  exists w', written. repeat split; assumption.
Defined.

(** * The claims about the console session *)

Section SessionClaims.

Variable int_of_string : string -> option Z.
Variable float_of_string : string -> option float.

Abbreviation get_user_input := (get_user_input int_of_string float_of_string).
Abbreviation main := (main int_of_string float_of_string).
Abbreviation session := (session int_of_string float_of_string).

(** C1. Whatever integer is entered as payment option, the order goes
    through: with 1 the processor created is a [CreditCardPayment] and the
    amount is confirmed by the credit-card line; with 2 it is a
    [PixPayment] and the amount is confirmed by the Pix line; in both
    cases no warning is written.  With any other integer the warning about
    the invalid option is written right after the payment prompt, a
    [CreditCardPayment] is created and the amount is confirmed by the
    credit-card line. *)
Theorem payment_option_selects (w : world) (customer line t p d : string)
    (rest : list string) (total : float) (payment_option discount_option : Z) :
  stdin w = customer :: line :: t :: p :: d :: rest ->
  float_of_string t = Some total ->
  int_of_string p = Some payment_option ->
  int_of_string d = Some discount_option ->
  let amount := discounted (chosen_discount discount_option) total in
  let before := stdout w ++ order_prompts ++ payment_menu in
  let after := discount_menu ++ chosen_discount_warning discount_option in
  let saved := saved_line customer (split "," line) in
  exists w' : world,
    get_user_input w = Ok tt w' /\
    (payment_option = 1%Z ->
       heap w' !! length (heap w) = Some CreditCardPayment /\
       stdout w' =
         before ++ after ++ [total_line amount; credit_card_line amount; saved]) /\
    (payment_option = 2%Z ->
       heap w' !! length (heap w) = Some PixPayment /\
       stdout w' =
         before ++ after ++ [total_line amount; pix_line amount; saved]) /\
    (payment_option <> 1%Z -> payment_option <> 2%Z ->
       heap w' !! length (heap w) = Some CreditCardPayment /\
       stdout w' =
         before ++ [payment_warning] ++ after ++
         [total_line amount; credit_card_line amount; saved]).
Proof.
  intros Hsi Ht Hp Hd amount before after saved.
  eexists. split.
  - exact (get_user_input_run _ _ w customer line t p d rest total
             payment_option discount_option Hsi Ht Hp Hd).
  - subst amount before after saved. cbn [heap stdout].
    unfold order_output, order_objects.
    split; [ | split ].
    + intros ->. split; [ now apply list_lookup_middle | ].
      now rewrite <- !app_assoc.
    + intros ->. split; [ now apply list_lookup_middle | ].
      now rewrite <- !app_assoc.
    + intros H1 H2. apply Z.eqb_neq in H1, H2.
      unfold chosen_payment, chosen_payment_warning. rewrite H1, H2.
      split; [ now apply list_lookup_middle | ].
      now rewrite <- !app_assoc.
Qed.

(** C2. Whatever integer is entered as discount option, the order goes
    through: with 1 the amount printed and charged is the total as
    entered; with 2 it is the total times 0.9; in both cases no warning is
    written.  With any other integer the warning about the invalid option
    is written right after the discount prompt and the amount is the total
    as entered. *)
Theorem discount_option_selects (w : world) (customer line t p d : string)
    (rest : list string) (total : float) (payment_option discount_option : Z) :
  stdin w = customer :: line :: t :: p :: d :: rest ->
  float_of_string t = Some total ->
  int_of_string p = Some payment_option ->
  int_of_string d = Some discount_option ->
  let before :=
    stdout w ++ order_prompts ++ payment_menu ++
    chosen_payment_warning payment_option ++ discount_menu in
  let charged := payment_line (chosen_payment payment_option) in
  let saved := saved_line customer (split "," line) in
  exists w' : world,
    get_user_input w = Ok tt w' /\
    (discount_option = 1%Z ->
       stdout w' = before ++ [total_line total; charged total; saved]) /\
    (discount_option = 2%Z ->
       stdout w' =
         before ++ [total_line (total * 0.9); charged (total * 0.9)%float; saved]) /\
    (discount_option <> 1%Z -> discount_option <> 2%Z ->
       stdout w' =
         before ++ [discount_warning] ++
         [total_line total; charged total; saved]).
Proof.
  intros Hsi Ht Hp Hd before charged saved.
  eexists. split.
  - exact (get_user_input_run _ _ w customer line t p d rest total
             payment_option discount_option Hsi Ht Hp Hd).
  - subst before charged saved. cbn [heap stdout]. unfold order_output.
    split; [ | split ].
    + intros ->. now rewrite <- !app_assoc.
    + intros ->. now rewrite <- !app_assoc.
    + intros H1 H2. apply Z.eqb_neq in H1, H2.
      unfold chosen_discount, chosen_discount_warning. rewrite H1, H2.
      now rewrite <- !app_assoc.
Qed.

(** C7. Scenario A: customer Ana, items bread,milk, total 100, payment
    option 1, discount option 2.  The discounted total printed is exactly
    90.0, the credit-card line confirms 90.0, and the repository line is
    for Ana with the items bread and milk. *)
Theorem scenario_A (w : world) (rest : list string) :
  stdin w = "Ana" :: "bread,milk" :: "100" :: "1" :: "2" :: rest ->
  float_of_string "100" = Some 100%float ->
  int_of_string "1" = Some 1%Z ->
  int_of_string "2" = Some 2%Z ->
  exists w' : world,
    get_user_input w = Ok tt w' /\
    stdin w' = rest /\
    stdout w' =
      stdout w ++ order_prompts ++ payment_menu ++ discount_menu ++
      [total_line 90; credit_card_line 90; saved_line "Ana" ["bread"; "milk"]].
Proof.
  intros Hsi Ht Hp Hd. eexists. split.
  - exact (get_user_input_run _ _ w _ _ _ _ _ rest _ _ _ Hsi Ht Hp Hd).
  - split; reflexivity.
Qed.

(** C8, as the code has it.  A total that [float] rejects, or an option
    that [int] rejects, is not recovered from: [get_user_input] raises
    [ValueError] at that answer, before any order or service object exists
    and before [place_order] writes anything, and the loop ends the
    session with that exception.  It is not the only abnormal end: when
    the input is exhausted [input] raises [EOFError], which ends the
    session too, even after an order whose numeric answers were all
    accepted and which was processed. *)
Theorem parse_failure_ends_session :
  (forall (w : world) (customer line t : string) (rest : list string),
      stdin w = customer :: line :: t :: rest ->
      float_of_string t = None ->
      get_user_input w =
        Raise ValueError (World (heap w) rest (stdout w ++ order_prompts))) /\
  (forall (w : world) (customer line t p : string) (rest : list string)
          (total : float),
      stdin w = customer :: line :: t :: p :: rest ->
      float_of_string t = Some total ->
      int_of_string p = None ->
      get_user_input w =
        Raise ValueError
          (World (heap w) rest (stdout w ++ order_prompts ++ payment_menu))) /\
  (forall (w : world) (customer line t p d : string) (rest : list string)
          (total : float) (payment_option : Z),
      stdin w = customer :: line :: t :: p :: d :: rest ->
      float_of_string t = Some total ->
      int_of_string p = Some payment_option ->
      int_of_string d = None ->
      get_user_input w =
        Raise ValueError
          (World (heap w ++ [chosen_payment payment_option]) rest
             (stdout w ++ order_prompts ++ payment_menu ++
              chosen_payment_warning payment_option ++ discount_menu))) /\
  (forall (fuel : nat) (w w' : world) (e : exn),
      get_user_input w = Raise e w' ->
      main (S fuel) w = Some (Raise e w')) /\
  (forall (fuel : nat) (w : world) (customer line t p d : string)
          (total : float) (payment_option discount_option : Z),
      stdin w = [customer; line; t; p; d] ->
      float_of_string t = Some total ->
      int_of_string p = Some payment_option ->
      int_of_string d = Some discount_option ->
      main (S fuel) w =
        Some (Raise EOFError
                (World (heap w ++ order_objects (length (heap w)) customer line
                                    payment_option discount_option)
                   []
                   ((stdout w ++ order_output customer line total
                                   payment_option discount_option) ++
                    [continue_prompt])))).
Proof.
  repeat apply conj.
  - apply get_user_input_bad_total.
  - apply get_user_input_bad_payment.
  - apply get_user_input_bad_discount.
  - apply main_raise.
  - intros fuel w c l t p d x po dop Hsi Ht Hp Hd.
    pose proof (get_user_input_run _ _ w c l t p d [] x po dop Hsi Ht Hp Hd) as Hrun.
    now rewrite (main_eof _ _ fuel w _ tt Hrun eq_refl).
Qed.

(** C9. After an order, the loop goes on exactly when the answer to the
    continuation prompt, in lower case, is [s], that is when the answer is
    [s] or [S]; with any other answer the closing line is written and the
    session ends normally.  So an order followed by an answer other than
    [s] or [S], such as [n], is a session that ends normally with the
    closing line after exactly one saved order, and an order, [s], a second
    order and such an answer is one with exactly two saved orders. *)
Theorem continue_exactly_on_s :
  (forall answer : string,
      lower answer = "s" <-> answer = "s" \/ answer = "S") /\
  (forall (fuel : nat) (w w1 : world) (answer : string) (rest : list string),
      get_user_input w = Ok tt w1 ->
      stdin w1 = answer :: rest ->
      (lower answer = "s" ->
         main (S fuel) w =
           main fuel (World (heap w1) rest (stdout w1 ++ [continue_prompt]))) /\
      (lower answer <> "s" ->
         main (S fuel) w =
           Some (Ok tt (World (heap w1) rest
                          (stdout w1 ++ [continue_prompt; closing_line]))))) /\
  (forall (w : world) (customer line t p d answer : string)
          (rest : list string) (total : float)
          (payment_option discount_option : Z),
      stdin w = customer :: line :: t :: p :: d :: answer :: rest ->
      float_of_string t = Some total ->
      int_of_string p = Some payment_option ->
      int_of_string d = Some discount_option ->
      lower answer <> "s" ->
      exists w' : world,
        session w = Some (Ok tt w') /\
        stdin w' = rest /\
        stdout w' =
          stdout w ++
          order_output customer line total payment_option discount_option ++
          [continue_prompt; closing_line] /\
        orders_saved (stdout w') = S (orders_saved (stdout w))) /\
  (forall (w : world) (customer1 line1 t1 p1 d1 answer1 : string)
          (customer2 line2 t2 p2 d2 answer2 : string)
          (rest : list string) (total1 total2 : float)
          (payment_option1 discount_option1 payment_option2 discount_option2 : Z),
      stdin w =
        customer1 :: line1 :: t1 :: p1 :: d1 :: answer1 ::
        customer2 :: line2 :: t2 :: p2 :: d2 :: answer2 :: rest ->
      float_of_string t1 = Some total1 ->
      int_of_string p1 = Some payment_option1 ->
      int_of_string d1 = Some discount_option1 ->
      float_of_string t2 = Some total2 ->
      int_of_string p2 = Some payment_option2 ->
      int_of_string d2 = Some discount_option2 ->
      lower answer1 = "s" ->
      lower answer2 <> "s" ->
      exists w' : world,
        session w = Some (Ok tt w') /\
        stdin w' = rest /\
        stdout w' =
          stdout w ++
          order_output customer1 line1 total1 payment_option1 discount_option1 ++
          [continue_prompt] ++
          order_output customer2 line2 total2 payment_option2 discount_option2 ++
          [continue_prompt; closing_line] /\
        orders_saved (stdout w') = S (S (orders_saved (stdout w)))).
Proof.
  repeat apply conj.
  - apply lower_s.
  - intros fuel w w1 answer rest Hrun Hsi.
    rewrite (main_step _ _ fuel w w1 tt answer rest Hrun Hsi). split.
    + intros ->. reflexivity.
    + intros Hn. apply String.eqb_neq in Hn. now rewrite Hn.
  - intros w customer line t p d answer rest total po dop Hsi Ht Hp Hd Hn.
    pose proof (get_user_input_run _ _ w customer line t p d (answer :: rest)
                  total po dop Hsi Ht Hp Hd) as Hrun.
    rewrite session_eq.
    erewrite main_step by (try exact Hrun; reflexivity).
    apply String.eqb_neq in Hn. rewrite Hn. cbn [negb heap stdin stdout].
    eexists. split; [ reflexivity | ]. cbn [heap stdin stdout].
    split; [ reflexivity | ]. split.
    + now rewrite <- app_assoc.
    + rewrite !orders_saved_app, orders_saved_order_output. cbn. lia.
  - intros w c1 l1 t1 p1 d1 a1 c2 l2 t2 p2 d2 a2 rest x1 x2 po1 do1 po2 do2
      Hsi Ht1 Hp1 Hd1 Ht2 Hp2 Hd2 Hs Hn.
    pose proof (get_user_input_run _ _ w c1 l1 t1 p1 d1 _ x1 po1 do1
                  Hsi Ht1 Hp1 Hd1) as Hrun1.
    rewrite session_eq, Hsi. cbn [length].
    erewrite main_step by (try exact Hrun1; reflexivity).
    rewrite Hs. cbn [String.eqb Ascii.eqb Bool.eqb negb].
    erewrite main_step;
      [ | apply (get_user_input_run _ _ _ c2 l2 t2 p2 d2 (a2 :: rest) x2 po2 do2);
          [ reflexivity | exact Ht2 | exact Hp2 | exact Hd2 ]
        | reflexivity ].
    apply String.eqb_neq in Hn. rewrite Hn. cbn [negb heap stdin stdout].
    eexists. split; [ reflexivity | ]. cbn [heap stdin stdout].
    split; [ reflexivity | ]. split.
    + now rewrite <- !app_assoc.
    + rewrite !orders_saved_app, !orders_saved_order_output. cbn. lia.
Qed.

End SessionClaims.

(** ** The claims on sample sessions *)

Lemma payment_option_selects_witness :
  exists w' : world,
    get_user_input sample_int sample_float
      (console ["Ana"; "bread,milk"; "50"; "9"; "1"]) = Ok tt w' /\
    heap w' !! 0%nat = Some CreditCardPayment /\
    stdout w' =
      order_prompts ++ payment_menu ++ [payment_warning] ++ discount_menu ++
      [total_line 50; credit_card_line 50; saved_line "Ana" ["bread"; "milk"]].
Proof.
  destruct (payment_option_selects sample_int sample_float
              (console ["Ana"; "bread,milk"; "50"; "9"; "1"])
              "Ana" "bread,milk" "50" "9" "1" [] 50 9 1
              eq_refl eq_refl eq_refl eq_refl)
    as (w' & Hrun & _ & _ & H).
  destruct H as [Hh Ho]; [ discriminate | discriminate | ].
  exists w'. split; [ exact Hrun | split; [ exact Hh | exact Ho ] ].
Defined.

Lemma discount_option_selects_witness :
  exists w' : world,
    get_user_input sample_int sample_float
      (console ["Ana"; "bread,milk"; "50"; "2"; "2"]) = Ok tt w' /\
    stdout w' =
      order_prompts ++ payment_menu ++ discount_menu ++
      [total_line 45; pix_line 45; saved_line "Ana" ["bread"; "milk"]].
Proof.
  destruct (discount_option_selects sample_int sample_float
              (console ["Ana"; "bread,milk"; "50"; "2"; "2"])
              "Ana" "bread,milk" "50" "2" "2" [] 50 2 2
              eq_refl eq_refl eq_refl eq_refl)
    as (w' & Hrun & _ & H & _).
  exists w'. split; [ exact Hrun | exact (H eq_refl) ].
Defined.

Lemma scenario_A_witness :
  exists w' : world,
    get_user_input sample_int sample_float
      (console ["Ana"; "bread,milk"; "100"; "1"; "2"]) = Ok tt w' /\
    stdin w' = [] /\
    stdout w' =
      order_prompts ++ payment_menu ++ discount_menu ++
      [total_line 90; credit_card_line 90; saved_line "Ana" ["bread"; "milk"]].
Proof.
  exact (scenario_A sample_int sample_float
           (console ["Ana"; "bread,milk"; "100"; "1"; "2"]) []
           eq_refl eq_refl eq_refl eq_refl).
Defined.

Lemma parse_failure_ends_session_witness :
  main sample_int sample_float 1 (console ["Ana"; "bread,milk"; "abc"])
  = Some (Raise ValueError (World [] [] order_prompts)) /\
  main sample_int sample_float 1 (console ["Ana"; "bread,milk"; "100"; "1.5"; "2"])
  = Some (Raise ValueError (World [] ["2"] (order_prompts ++ payment_menu))) /\
  main sample_int sample_float 1 (console ["Ana"; "bread,milk"; "100"; "1"; ""])
  = Some (Raise ValueError
            (World [CreditCardPayment] []
               (order_prompts ++ payment_menu ++ discount_menu))) /\
  main sample_int sample_float 1 (console ["Ana"; "bread,milk"; "100"; "1"; "2"])
  = Some (Raise EOFError
            (World (order_objects 0 "Ana" "bread,milk" 1 2) []
               (order_output "Ana" "bread,milk" 100 1 2 ++ [continue_prompt]))).
Proof.
  destruct (parse_failure_ends_session sample_int sample_float)
    as (H1 & H2 & H3 & H4 & H5).
  split; [ | split; [ | split ] ]; [ apply H4 | apply H4 | apply H4 | ].
  - apply (H1 (console ["Ana"; "bread,milk"; "abc"]) "Ana" "bread,milk" "abc" []);
      reflexivity.
  - apply (H2 (console ["Ana"; "bread,milk"; "100"; "1.5"; "2"])
             "Ana" "bread,milk" "100" "1.5" ["2"] 100%float); reflexivity.
  - apply (H3 (console ["Ana"; "bread,milk"; "100"; "1"; ""])
             "Ana" "bread,milk" "100" "1" "" [] 100%float 1%Z); reflexivity.
  - apply (H5 0%nat (console ["Ana"; "bread,milk"; "100"; "1"; "2"])
             "Ana" "bread,milk" "100" "1" "2" 100%float 1%Z 2%Z); reflexivity.
Defined.

(** C8 as stated fails: every numeric answer of this session is well
    formed and its order is processed, yet the session ends with an
    exception, the [EOFError] of the continuation prompt. *)
Lemma eof_ends_session_abnormally :
  sample_float "100" = Some 100%float /\
  sample_int "1" = Some 1%Z /\
  sample_int "2" = Some 2%Z /\
  session sample_int sample_float (console ["Ana"; "bread,milk"; "100"; "1"; "2"])
  = Some (Raise EOFError
            (World (order_objects 0 "Ana" "bread,milk" 1 2) []
               (order_output "Ana" "bread,milk" 100 1 2 ++ [continue_prompt]))).
Proof. repeat split. Qed.

Lemma continue_exactly_on_s_witness :
  (exists w' : world,
      session sample_int sample_float
        (console ["Ana"; "bread,milk"; "100"; "1"; "2"; "n"]) = Some (Ok tt w') /\
      stdin w' = [] /\
      stdout w' =
        order_output "Ana" "bread,milk" 100 1 2 ++ [continue_prompt; closing_line] /\
      orders_saved (stdout w') = 1%nat) /\
  (exists w' : world,
      session sample_int sample_float
        (console ["Ana"; "bread,milk"; "100"; "1"; "2"; "S";
                  "Bia"; "tea"; "50"; "2"; "1"; "N"; "left"]) = Some (Ok tt w') /\
      stdin w' = ["left"] /\
      stdout w' =
        order_output "Ana" "bread,milk" 100 1 2 ++ [continue_prompt] ++
        order_output "Bia" "tea" 50 2 1 ++ [continue_prompt; closing_line] /\
      orders_saved (stdout w') = 2%nat).
Proof.
  destruct (continue_exactly_on_s sample_int sample_float) as (_ & _ & H1 & H2).
  split.
  - apply (H1 (console ["Ana"; "bread,milk"; "100"; "1"; "2"; "n"])
             "Ana" "bread,milk" "100" "1" "2" "n" [] 100%float 1%Z 2%Z);
      first [ reflexivity | discriminate ].
  - apply (H2 (console ["Ana"; "bread,milk"; "100"; "1"; "2"; "S";
                        "Bia"; "tea"; "50"; "2"; "1"; "N"; "left"])
             "Ana" "bread,milk" "100" "1" "2" "S"
             "Bia" "tea" "50" "2" "1" "N" ["left"] 100%float 50%float
             1%Z 2%Z 2%Z 1%Z);
      first [ reflexivity | discriminate ].
Defined.

(** * Further properties of the module *)

(** ** Counting, and worlds that extend one another *)

Lemma closings_app (so so' : list out) :
  closings (so ++ so') = (closings so + closings so')%nat.
Proof. unfold closings. now rewrite List.filter_app, List.length_app. Qed.

Lemma closings_order_output (customer line : string) (total : float)
    (payment_option discount_option : Z) :
  closings (order_output customer line total payment_option discount_option)
  = 0%nat.
Proof.
  unfold order_output, chosen_payment_warning, chosen_discount_warning,
    chosen_payment, chosen_discount.
  destruct (payment_option =? 1)%Z, (payment_option =? 2)%Z,
    (discount_option =? 1)%Z, (discount_option =? 2)%Z; reflexivity.
Qed.

Lemma extends_refl (w : world) : extends w w.
Proof. unfold extends. repeat split; reflexivity. Qed.

Lemma extends_trans (w1 w2 w3 : world) :
  extends w1 w2 -> extends w2 w3 -> extends w1 w3.
Proof.
  intros (H1 & H2 & H3) (K1 & K2 & K3). unfold extends.
  repeat split; etrans; eassumption.
Qed.

Lemma extends_intro (w : world) (objs : list obj) (read : list string)
    (rest : list string) (written : list out) :
  stdin w = read ++ rest ->
  extends w (World (heap w ++ objs) rest (stdout w ++ written)).
Proof.
  intros H. unfold extends. cbn [heap stdin stdout]. rewrite H.
  repeat split; [ apply prefix_app_r | apply prefix_app_r | apply suffix_app_r ];
    reflexivity.
Qed.

Section MoreSessionFacts.

Variable int_of_string : string -> option Z.
Variable float_of_string : string -> option float.

Abbreviation get_user_input := (get_user_input int_of_string float_of_string).
Abbreviation main := (main int_of_string float_of_string).
Abbreviation session := (session int_of_string float_of_string).

(** A run of [get_user_input] that raises has read at most five lines,
    created at most one object, a payment processor, and written neither
    a repository line nor the closing line. *)
Lemma get_user_input_raise_shape (w w' : world) (e : exn) :
  get_user_input w = Raise e w' ->
  exists (objs : list obj) (read : list string) (written : list out),
    stdin w = read ++ stdin w' /\ (length read <= 5)%nat /\
    heap w' = heap w ++ objs /\
    Forall (fun o => is_service o = false) objs /\
    stdout w' = stdout w ++ written /\
    orders_saved written = 0%nat /\ closings written = 0%nat.
Proof.
  intros H.
  destruct (stdin w) as [|c [|l [|t si]]] eqn:Hsi.
  1-3: destruct w as [h si' so]; cbn [stdin] in Hsi; subst si';
    cbv [get_user_input bind print input py_float py_int ret raise
           heap stdin stdout] in H;
    injection H as <- <-; cbn [heap stdin stdout];
    eexists [], _, _; split_and!;
    [ symmetry; apply app_nil_r | cbn; lia | symmetry; apply app_nil_r
    | constructor | rewrite <- ?app_assoc; reflexivity | reflexivity .. ].
  destruct (float_of_string t) as [total|] eqn:Ht.
  2: { rewrite (get_user_input_bad_total _ _ w c l t si Hsi Ht) in H.
       injection H as <- <-. cbn [heap stdin stdout].
       exists [], [c; l; t], order_prompts. split_and!;
         [ reflexivity | cbn; lia | symmetry; apply app_nil_r
         | constructor | reflexivity .. ]. }
  destruct si as [|p si].
  { destruct w as [h si' so]; cbn [stdin] in Hsi; subst si'.
    cbv [get_user_input bind print input py_float py_int ret raise
           heap stdin stdout] in H.
    rewrite Ht in H. injection H as <- <-. cbn [heap stdin stdout].
    eexists [], _, _; split_and!;
    [ symmetry; apply app_nil_r | cbn; lia | symmetry; apply app_nil_r
    | constructor | rewrite <- ?app_assoc; reflexivity | reflexivity .. ]. }
  destruct (int_of_string p) as [po|] eqn:Hp.
  2: { rewrite (get_user_input_bad_payment _ _ w c l t p si total Hsi Ht Hp) in H.
       injection H as <- <-. cbn [heap stdin stdout].
       exists [], [c; l; t; p], (order_prompts ++ payment_menu). split_and!;
         [ reflexivity | cbn; lia | symmetry; apply app_nil_r
         | constructor | reflexivity .. ]. }
  destruct si as [|d si].
  { destruct w as [h si' so]; cbn [stdin] in Hsi; subst si'.
    cbv [get_user_input bind print input py_float py_int ret raise
           heap stdin stdout] in H.
    rewrite Ht, Hp in H.
    destruct (po =? 1)%Z, (po =? 2)%Z;
      cbv [new bind print heap stdin stdout] in H;
      injection H as <- <-; cbn [heap stdin stdout];
      (eexists [_], _, _; split_and!;
       first [ symmetry; apply app_nil_r | reflexivity | cbn; lia
             | rewrite <- ?app_assoc; reflexivity
             | constructor; [ reflexivity | constructor ] ]). }
  destruct (int_of_string d) as [dop|] eqn:Hd.
  2: { rewrite (get_user_input_bad_discount _ _ w c l t p d si total po Hsi Ht Hp Hd) in H.
       injection H as <- <-. cbn [heap stdin stdout].
       exists [chosen_payment po], [c; l; t; p; d],
         (order_prompts ++ payment_menu ++ chosen_payment_warning po ++ discount_menu).
       unfold chosen_payment, chosen_payment_warning.
       destruct (po =? 1)%Z, (po =? 2)%Z;
         (split_and!; [ reflexivity | cbn; lia | reflexivity | repeat constructor
                      | reflexivity .. ]). }
  rewrite (get_user_input_run _ _ w c l t p d si total po dop Hsi Ht Hp Hd) in H.
  discriminate H.
Qed.

Lemma extends_of_eqs (w w' : world) (objs : list obj) (read : list string)
    (written : list out) :
  stdin w = read ++ stdin w' ->
  heap w' = heap w ++ objs ->
  stdout w' = stdout w ++ written ->
  extends w w'.
Proof.
  intros H1 H2 H3. unfold extends. rewrite H1, H2, H3.
  split_and!; [ apply prefix_app_r | apply prefix_app_r | apply suffix_app_r ];
    reflexivity.
Qed.

(** The three ways one turn of the loop goes on from a processed order. *)
Lemma main_after_order (fuel : nat) (w : world) (customer line t p d : string)
    (rest : list string) (total : float) (payment_option discount_option : Z) :
  stdin w = customer :: line :: t :: p :: d :: rest ->
  float_of_string t = Some total ->
  int_of_string p = Some payment_option ->
  int_of_string d = Some discount_option ->
  let h1 := heap w ++ order_objects (length (heap w)) customer line
                        payment_option discount_option in
  let so1 := stdout w ++ order_output customer line total
                           payment_option discount_option in
  main (S fuel) w =
    match rest with
    | [] => Some (Raise EOFError (World h1 [] (so1 ++ [continue_prompt])))
    | answer :: rest' =>
        if negb (String.eqb (lower answer) "s")
        then Some (Ok tt (World h1 rest' (so1 ++ [continue_prompt; closing_line])))
        else main fuel (World h1 rest' (so1 ++ [continue_prompt]))
    end.
Proof.
  intros Hsi Ht Hp Hd h1 so1.
  pose proof (get_user_input_run _ _ w customer line t p d rest total
                payment_option discount_option Hsi Ht Hp Hd) as Hrun.
  destruct rest as [|answer rest'].
  - now rewrite (main_eof _ _ fuel w _ tt Hrun eq_refl).
  - now rewrite (main_step _ _ fuel w _ tt answer rest' Hrun eq_refl).
Qed.

Lemma main_fuel_mono (fuel : nat) :
  forall (w : world) (r : result unit) (k : nat),
    main fuel w = Some r -> main (fuel + k) w = Some r.
Proof.
  induction fuel as [|fuel IH]; intros w r k H; [ discriminate H | ].
  cbn [Nat.add]. rewrite main_S in *.
  destruct (get_user_input w) as [u w1 | e w1]; [ | exact H ].
  destruct (input "Deseja fazer outro pedido? (s/n): " w1) as [answer w2 | e w2];
    [ | exact H ].
  destruct (negb (String.eqb (lower answer) "s")); [ exact H | ].
  now apply IH.
Qed.

(** X1. On every finite input the loop of [__main__] stops, by [break]
    or by an exception, within one turn more than there are pending
    input lines; and the outcome is the same under every bound on the
    number of turns that lets the loop stop. *)
Theorem loop_always_stops (w : world) :
  (exists r : result unit, session w = Some r) /\
  (forall (fuel : nat) (r : result unit),
      main fuel w = Some r -> session w = Some r).
Proof.
  assert (exists r : result unit, session w = Some r) as [r' Hr'].
  { pose proof (session_terminates int_of_string float_of_string w) as H.
    destruct (session w) as [r'|]; [ now exists r' | contradiction ]. }
  split; [ now exists r' | ].
  intros fuel r H. rewrite Hr'. rewrite session_eq in Hr'.
  apply (main_fuel_mono _ _ _ (S (length (stdin w)))) in H.
  apply (main_fuel_mono _ _ _ fuel) in Hr'.
  rewrite Nat.add_comm in Hr'. congruence.
Qed.

(** X2. A session that ends normally has processed at least one order,
    and for each order it has read exactly six lines (five answers and the
    answer to the continuation prompt), written one repository line and
    created five objects; the last thing written is the closing line. *)
Theorem normal_end_accounting (fuel : nat) :
  forall (w w' : world) (u : unit),
    main fuel w = Some (Ok u w') ->
    exists (n : nat) (so : list out),
      (1 <= n)%nat /\
      length (stdin w) = (6 * n + length (stdin w'))%nat /\
      orders_saved (stdout w') = (orders_saved (stdout w) + n)%nat /\
      length (heap w') = (length (heap w) + 5 * n)%nat /\
      stdout w' = so ++ [closing_line].
Proof.
  induction fuel as [|fuel IH]; intros w w' u H; [ discriminate H | ].
  destruct (get_user_input_cases int_of_string float_of_string w)
    as [(c & l & t & p & d & rest & x & po & dop & Hsi & Ht & Hp & Hd)
       | [(w1 & Hr & _) | (w1 & Hr & _)]].
  - rewrite (main_after_order fuel w c l t p d rest x po dop Hsi Ht Hp Hd) in H.
    destruct rest as [|answer rest']; [ discriminate H | ].
    destruct (negb (String.eqb (lower answer) "s")).
    + injection H as _ <-. cbn [heap stdin stdout].
      exists 1%nat, ((stdout w ++ order_output c l x po dop) ++ [continue_prompt]).
      rewrite Hsi, !orders_saved_app, orders_saved_order_output, !length_app.
      split_and!; [ lia | cbn; lia | cbn; lia | cbn; lia | ].
      now rewrite <- !app_assoc.
    + apply IH in H as (n & so & Hn & Hlen & Hsaved & Hheap & Hso).
      cbn [heap stdin stdout] in Hlen, Hsaved, Hheap.
      rewrite !orders_saved_app, orders_saved_order_output in Hsaved.
      rewrite length_app in Hheap.
      exists (S n), so. rewrite Hsi.
      split_and!; [ lia | cbn in *; lia | cbn in *; lia | cbn in *; lia | exact Hso ].
  - rewrite (main_raise _ _ _ _ _ _ Hr) in H. discriminate H.
  - rewrite (main_raise _ _ _ _ _ _ Hr) in H. discriminate H.
Qed.

(** X3. A session that ends with an exception never writes the closing
    line, and keeps what it wrote: the repository lines of the [n] orders
    processed before the exception are on the console.  It has read six
    lines for each of them, but for at most one line more or five lines
    more: the continuation answer that was missing, or the answers of the
    order that failed. *)
Theorem abnormal_end_accounting (fuel : nat) :
  forall (w w' : world) (e : exn),
    main fuel w = Some (Raise e w') ->
    exists (n : nat) (written : list out),
      stdout w' = stdout w ++ written /\
      orders_saved written = n /\
      closings written = 0%nat /\
      (length (stdin w') + 6 * n <= length (stdin w) + 1)%nat /\
      (length (stdin w) <= length (stdin w') + 6 * n + 5)%nat.
Proof.
  induction fuel as [|fuel IH]; intros w w' e H; [ discriminate H | ].
  destruct (get_user_input_cases int_of_string float_of_string w)
    as [(c & l & t & p & d & rest & x & po & dop & Hsi & Ht & Hp & Hd)
       | [(w1 & Hr & _) | (w1 & Hr & _)]].
  - rewrite (main_after_order fuel w c l t p d rest x po dop Hsi Ht Hp Hd) in H.
    destruct rest as [|answer rest'].
    + injection H as <- <-. cbn [heap stdin stdout].
      exists 1%nat, (order_output c l x po dop ++ [continue_prompt]).
      rewrite Hsi, orders_saved_app, closings_app, orders_saved_order_output,
        closings_order_output, app_assoc.
      split_and!; [ reflexivity | reflexivity | reflexivity | cbn; lia | cbn; lia ].
    + destruct (negb (String.eqb (lower answer) "s")); [ discriminate H | ].
      apply IH in H as (n & written & Hso & Hsaved & Hclose & Hlo & Hhi).
      cbn [heap stdin stdout] in Hso, Hlo, Hhi.
      exists (S n), (order_output c l x po dop ++ [continue_prompt] ++ written).
      rewrite Hsi, Hso, !orders_saved_app, !closings_app,
        orders_saved_order_output, closings_order_output, Hsaved, Hclose.
      split_and!;
        [ now rewrite <- !app_assoc | reflexivity | reflexivity
        | cbn in *; lia | cbn in *; lia ].
  - rewrite (main_raise _ _ _ _ _ _ Hr) in H. injection H as <- <-.
    apply get_user_input_raise_shape in Hr
      as (objs & read & written & Hsi & Hlen & _ & _ & Hso & Hsaved & Hclose).
    exists 0%nat, written. rewrite Hsi, length_app.
    split_and!; [ exact Hso | exact Hsaved | exact Hclose | lia | lia ].
  - rewrite (main_raise _ _ _ _ _ _ Hr) in H. injection H as <- <-.
    apply get_user_input_raise_shape in Hr
      as (objs & read & written & Hsi & Hlen & _ & _ & Hso & Hsaved & Hclose).
    exists 0%nat, written. rewrite Hsi, length_app.
    split_and!; [ exact Hso | exact Hsaved | exact Hclose | lia | lia ].
Qed.

(** X4. Whatever a session does and however it ends, nothing is undone:
    every object that existed is still there unchanged, with the new ones
    behind it; everything written is still on the console, with the new
    lines behind it; and the input left is the end of the input that was
    left. *)
Theorem world_only_grows (fuel : nat) :
  forall (w : world) (r : result unit),
    main fuel w = Some r -> extends w (world_of r).
Proof.
  induction fuel as [|fuel IH]; intros w r H; [ discriminate H | ].
  destruct (get_user_input_cases int_of_string float_of_string w)
    as [(c & l & t & p & d & rest & x & po & dop & Hsi & Ht & Hp & Hd)
       | [(w1 & Hr & _) | (w1 & Hr & _)]].
  - rewrite (main_after_order fuel w c l t p d rest x po dop Hsi Ht Hp Hd) in H.
    destruct rest as [|answer rest'].
    + injection H as <-. cbn [world_of]. rewrite <- app_assoc.
      now apply (extends_intro w _ [c; l; t; p; d]).
    + destruct (negb (String.eqb (lower answer) "s")).
      * injection H as <-. cbn [world_of]. rewrite <- app_assoc.
        now apply (extends_intro w _ [c; l; t; p; d; answer]).
      * apply IH in H. eapply extends_trans; [ | exact H ].
        rewrite <- app_assoc.
        now apply (extends_intro w _ [c; l; t; p; d; answer]).
  - rewrite (main_raise _ _ _ _ _ _ Hr) in H. injection H as <-. cbn [world_of].
    apply get_user_input_raise_shape in Hr
      as (objs & read & written & Hsi & _ & Hh & _ & Hso & _).
    now apply (extends_of_eqs w w1 objs read written).
  - rewrite (main_raise _ _ _ _ _ _ Hr) in H. injection H as <-. cbn [world_of].
    apply get_user_input_raise_shape in Hr
      as (objs & read & written & Hsi & _ & Hh & _ & Hso & _).
    now apply (extends_of_eqs w w1 objs read written).
Qed.

Lemma well_formed_app (h objs : list obj) :
  well_formed h ->
  Forall (fun o => is_service o = false) objs ->
  well_formed (h ++ objs).
Proof.
  intros Hwf Hobjs l pp d Hl.
  apply lookup_app_Some in Hl. destruct Hl as [Hl | [_ Hl]].
  - destruct (Hwf l pp d Hl) as (po & dobj & H1 & H2 & H3 & H4).
    exists po, dobj. split_and!; auto using lookup_old.
  - rewrite Forall_lookup in Hobjs. specialize (Hobjs _ _ Hl). discriminate Hobjs.
Qed.

Lemma chosen_payment_is_processor (n : Z) :
  is_payment_processor (chosen_payment n) = true.
Proof. unfold chosen_payment. now destruct (n =? 1)%Z, (n =? 2)%Z. Qed.

Lemma chosen_discount_is_discount (n : Z) :
  is_discount (chosen_discount n) = true.
Proof. unfold chosen_discount. now destruct (n =? 1)%Z, (n =? 2)%Z. Qed.

Lemma well_formed_order (h : list obj) (customer line : string)
    (payment_option discount_option : Z) :
  well_formed h ->
  well_formed (h ++ order_objects (length h) customer line
                      payment_option discount_option).
Proof.
  intros Hwf l pp d Hl.
  apply lookup_app_Some in Hl. destruct Hl as [Hl | [_ Hl]].
  - destruct (Hwf l pp d Hl) as (po & dobj & H1 & H2 & H3 & H4).
    exists po, dobj. split_and!; auto using lookup_old.
  - unfold order_objects in *.
    destruct (l - length h)%nat as [|[|[|[|[|k]]]]]; cbn in Hl;
      try discriminate Hl.
    { injection Hl as Hl.
      pose proof (chosen_payment_is_processor payment_option) as Hp.
      rewrite Hl in Hp. discriminate Hp. }
    { injection Hl as Hl.
      pose proof (chosen_discount_is_discount discount_option) as Hd.
      rewrite Hl in Hd. discriminate Hd. }
    injection Hl as <- <-.
    exists (chosen_payment payment_option), (chosen_discount discount_option).
    split_and!.
    + now apply list_lookup_middle.
    + apply chosen_payment_is_processor.
    + rewrite (cons_middle (chosen_payment payment_option)), app_assoc.
      apply list_lookup_middle. rewrite length_app. cbn. lia.
    + apply chosen_discount_is_discount.
Qed.

Lemma well_formed_nil : well_formed [].
Proof. intros l pp d Hl. discriminate Hl. Qed.

(** X5. Every service a session creates holds a payment processor and a
    discount, in whatever state the session ends; so [place_order] on any
    service and any order found in the heap afterwards goes through
    without an exception. *)
Theorem services_stay_usable (fuel : nat) :
  forall (w : world) (r : result unit),
    well_formed (heap w) ->
    main fuel w = Some r ->
    well_formed (heap (world_of r)) /\
    (forall (s o pp d : loc) (items : list string) (customer : string)
            (total : float),
        heap (world_of r) !! s = Some (OrderService pp d) ->
        heap (world_of r) !! o = Some (Order items customer) ->
        exists w' : world, place_order s o total (world_of r) = Ok tt w').
Proof.
  assert (forall (w : world) (r : result unit),
             well_formed (heap w) -> main fuel w = Some r ->
             well_formed (heap (world_of r))) as Hinv.
  { induction fuel as [|fuel IH]; intros w r Hwf H; [ discriminate H | ].
    destruct (get_user_input_cases int_of_string float_of_string w)
      as [(c & l & t & p & d & rest & x & po & dop & Hsi & Ht & Hp & Hd)
         | [(w1 & Hr & _) | (w1 & Hr & _)]].
    - rewrite (main_after_order fuel w c l t p d rest x po dop Hsi Ht Hp Hd) in H.
      pose proof (well_formed_order (heap w) c l po dop Hwf) as Hwf1.
      destruct rest as [|answer rest'].
      + now injection H as <-.
      + destruct (negb (String.eqb (lower answer) "s")).
        * now injection H as <-.
        * now apply IH in H.
    - rewrite (main_raise _ _ _ _ _ _ Hr) in H. injection H as <-. cbn [world_of].
      apply get_user_input_raise_shape in Hr
        as (objs & read & written & _ & _ & Hh & Hobjs & _).
      rewrite Hh. now apply well_formed_app.
    - rewrite (main_raise _ _ _ _ _ _ Hr) in H. injection H as <-. cbn [world_of].
      apply get_user_input_raise_shape in Hr
        as (objs & read & written & _ & _ & Hh & Hobjs & _).
      rewrite Hh. now apply well_formed_app. }
  intros w r Hwf H. specialize (Hinv w r Hwf H). split; [ exact Hinv | ].
  intros s o pp d items customer total Hs Ho.
  destruct (Hinv s pp d Hs) as (po & dobj & Hpp & Hpo & Hd & Hdo).
  destruct (apply_discount_pure _ d total dobj Hd Hdo) as [x Hx].
  eexists. eapply place_order_run; eauto.
Qed.


End MoreSessionFacts.

(** ** More binary64 arithmetic *)

Lemma SFcompare_refl (x : spec_float) :
  x <> S754_nan -> SFcompare x x = Some Eq.
Proof.
  destruct x as [[] | [] | | [] m e]; intros H; try reflexivity;
    try contradiction; cbn [SFcompare];
    now rewrite Z.compare_refl, Pos.compare_cont_refl.
Qed.

Lemma leb_refl_of_nonneg (x : float) :
  (0 <=? x)%float = true -> (x <=? x)%float = true.
Proof.
  rewrite !FloatAxioms.leb_spec. intros H. unfold SFleb.
  rewrite SFcompare_refl; [ reflexivity | ].
  intros Hnan. rewrite Hnan in H. discriminate H.
Qed.

Lemma discounted_le (discount_option : Z) (total : float) :
  (0 <=? total)%float = true ->
  (discounted (chosen_discount discount_option) total <=? total)%float = true.
Proof.
  intros H. unfold chosen_discount.
  destruct (discount_option =? 1)%Z; [ now apply leb_refl_of_nonneg | ].
  destruct (discount_option =? 2)%Z; [ | now apply leb_refl_of_nonneg ].
  cbn [discounted]. apply discount_le; [ exact H | reflexivity | | ].
  - change (0.1 =? 1)%float with false. apply andb_false_r.
  - change (0.1 =? infinity)%float with false. apply andb_false_r.
Qed.

Section Charging.

Variable int_of_string : string -> option Z.
Variable float_of_string : string -> option float.

Abbreviation get_user_input := (get_user_input int_of_string float_of_string).

(** X7. Whatever the options entered, a total that is zero or more is
    never raised: the amount printed as final total, which is the amount
    the payment line confirms, is at most the total entered. *)
Theorem never_overcharged (w : world) (customer line t p d : string)
    (rest : list string) (total : float) (payment_option discount_option : Z) :
  stdin w = customer :: line :: t :: p :: d :: rest ->
  float_of_string t = Some total ->
  int_of_string p = Some payment_option ->
  int_of_string d = Some discount_option ->
  (0 <=? total)%float = true ->
  exists (w' : world) (amount : float) (so : list out),
    get_user_input w = Ok tt w' /\
    stdout w' =
      so ++ [total_line amount;
             payment_line (chosen_payment payment_option) amount;
             saved_line customer (split "," line)] /\
    (amount <=? total)%float = true.
Proof.
  intros Hsi Ht Hp Hd Hpos.
  eexists _, (discounted (chosen_discount discount_option) total), _.
  split; [ | split ].
  - exact (get_user_input_run _ _ w customer line t p d rest total
             payment_option discount_option Hsi Ht Hp Hd).
  - cbn [stdout]. unfold order_output. rewrite !app_assoc. reflexivity.
  - now apply discounted_le.
Qed.

End Charging.

(** ** [place_order] on objects of the wrong class *)

(** X8. [place_order] does not roll back.  On a service whose discount
    is an object of another class it raises [AttributeError] before it
    writes anything; with a discount but a payment processor of another
    class it raises after the line of the final total; with both, but an
    order that is not an [Order], it raises after the payment line: the
    payment is confirmed although the order is not saved. *)
Theorem place_order_does_not_roll_back (w : world) (self order : loc)
    (total : float) (pp d : loc) (dobj : obj) :
  heap w !! self = Some (OrderService pp d) ->
  heap w !! d = Some dobj ->
  (is_discount dobj = false ->
   place_order self order total w = Raise AttributeError w) /\
  (forall po : obj,
      is_discount dobj = true ->
      heap w !! pp = Some po -> is_payment_processor po = false ->
      place_order self order total w =
        Raise AttributeError
          (World (heap w) (stdin w)
             (stdout w ++ [total_line (discounted dobj total)]))) /\
  (forall po o : obj,
      is_discount dobj = true ->
      heap w !! pp = Some po -> is_payment_processor po = true ->
      heap w !! order = Some o -> is_order o = false ->
      place_order self order total w =
        Raise AttributeError
          (World (heap w ++ [OrderRepository]) (stdin w)
             (stdout w ++ [total_line (discounted dobj total);
                           payment_line po (discounted dobj total)]))).
Proof.
  intros Hs Hd. split_and!.
  - intros Hdo. unfold place_order, bind, deref, apply_discount. rewrite Hs.
    cbv beta iota. unfold bind, deref. rewrite Hd.
    destruct dobj; try discriminate Hdo; reflexivity.
  - intros po Hdo Hp Hpo.
    assert (apply_discount d total w = Ok (discounted dobj total) w) as Hx.
    { destruct dobj; try discriminate Hdo;
        [ now apply apply_discount_NoDiscount
        | now apply apply_discount_PercentageDiscount ]. }
    unfold place_order, bind at 1, deref. rewrite Hs.
    unfold bind at 1. rewrite Hx.
    unfold bind at 1, print. cbn [heap stdin stdout].
    unfold bind at 1, process_payment, bind at 1, deref. cbn [heap].
    rewrite Hp. destruct po; try discriminate Hpo; reflexivity.
  - intros po o Hdo Hp Hpo Ho Hno.
    assert (apply_discount d total w = Ok (discounted dobj total) w) as Hx.
    { destruct dobj; try discriminate Hdo;
        [ now apply apply_discount_NoDiscount
        | now apply apply_discount_PercentageDiscount ]. }
    unfold place_order, bind at 1, deref. rewrite Hs.
    unfold bind at 1. rewrite Hx.
    unfold bind at 1, print. cbn [heap stdin stdout].
    unfold bind at 1.
    erewrite process_payment_run by (cbn [heap]; eauto). cbn [heap stdin stdout].
    unfold bind at 1, new. cbn [heap stdin stdout].
    unfold save_order, bind, deref. cbn [heap stdin stdout].
    rewrite (lookup_old _ _ _ _ Ho). rewrite <- !app_assoc.
    destruct o; try discriminate Hno; reflexivity.
Qed.

(** ** [split] *)

Lemma split_nonempty (sep : ascii) (s : string) : split sep s <> [].
Proof.
  destruct s as [|c s]; cbn [split]; [ discriminate | ].
  destruct (Ascii.eqb c sep); [ discriminate | ].
  destruct (split sep s); discriminate.
Qed.

(** X9. [line.split(",")] never gives an empty list: a line without
    commas, the empty line too, gives the list of that one line.  It
    gives one item more than there are commas, no item contains a
    comma, and the items joined by commas are the line again. *)
Theorem split_round_trip (sep : ascii) (s : string) :
  split sep s <> [] /\
  (count_char sep s = 0%nat -> split sep s = [s]) /\
  length (split sep s) = S (count_char sep s) /\
  Forall (fun item => count_char sep item = 0%nat) (split sep s) /\
  String.concat (String sep EmptyString) (split sep s) = s.
Proof.
  split; [ apply split_nonempty | ].
  induction s as [|c s (IH0 & IH1 & IH2 & IH3)]; cbn [split count_char].
  - split_and!; [ reflexivity | reflexivity | repeat constructor | reflexivity ].
  - pose proof (split_nonempty sep s) as Hne.
    destruct (Ascii.eqb_spec c sep) as [-> | Hc].
    + split_and!.
      * discriminate.
      * cbn. now rewrite IH1.
      * now constructor.
      * destruct (split sep s) as [|h t]; [ contradiction | ].
        cbn [String.concat String.append] in *. f_equal. exact IH3.
    + destruct (split sep s) as [|h t]; [ contradiction | ].
      split_and!.
      * intros H0. cbn in H0. specialize (IH0 H0). injection IH0 as -> ->.
        reflexivity.
      * cbn in *. lia.
      * inversion IH2 as [|? ? Hh Ht]; subst. constructor; [ | exact Ht ].
        cbn [count_char]. destruct (Ascii.eqb_spec c sep); [ contradiction | ].
        exact Hh.
      * destruct t; cbn [String.concat String.append] in *; f_equal; exact IH3.
Qed.

(** ** The rates 0 and 1 *)

Section Binary64Exact.
#[local] Open Scope Z_scope.

Lemma digits2_pos_unique (x : positive) (d : Z) :
  2 ^ (d - 1) <= Zpos x < 2 ^ d -> Zpos (digits2_pos x) = d.
Proof.
  intros [L U]. pose proof (digits2_pos_bounds x) as [L' U'].
  set (D := Zpos (digits2_pos x)) in *.
  assert (0 < D) as HD by (subst D; lia).
  assert (0 < d) as Hd.
  { destruct (Z_lt_le_dec 0 d) as [|Hle]; [ assumption | exfalso ].
    destruct (Z.eq_dec d 0) as [-> | Hne]; [ cbn in U; lia | ].
    rewrite (Z.pow_neg_r 2 d) in U by lia. lia. }
  assert (d - 1 < D) by (apply pow2_lt_inv; lia).
  assert (D - 1 < d) by (apply pow2_lt_inv; lia).
  lia.
Qed.

(** Multiplying by one is exact. *)
Lemma SFmul_one (s : bool) (m : positive) (e : Z) :
  bounded prec emax m e = true ->
  SF64mul (S754_finite s m e) SF_one = S754_finite s m e.
Proof.
  intros Hb. destruct (bounded_spec m e Hb) as [Hfe He].
  pose proof (digits2_pos_bounds m) as Pm.
  set (dm := Zpos (digits2_pos m)) in *.
  assert (0 < dm) as Hdm by (subst dm; lia).
  unfold SF64mul, SFmul, SF_one. rewrite xorb_false_r.
  destruct (binary_round_aux_spec s (m * 4503599627370496) (e + -52))
    as (k & m1 & m2 & k' & m3 & Hk & Hm1 & B1 & B2 & I2 & Hk' & Hm3 & B3 & ->).
  assert (Zpos (m * 4503599627370496) = Zpos m * 2 ^ 52) as Hprod
      by (rewrite Pos2Z.inj_mul; reflexivity).
  pose proof (pow2_pos 52 ltac:(lia)) as P52.
  assert (Zpos (digits2_pos (m * 4503599627370496)) = dm + 52) as Hdig.
  { apply digits2_pos_unique. rewrite Hprod.
    replace (dm + 52 - 1) with (dm - 1 + 52) by lia.
    rewrite !pow2_split by lia. split.
    - apply Z.mul_le_mono_nonneg_r; lia.
    - apply Z.mul_lt_mono_pos_r; lia. }
  rewrite Hdig, fexp64 in Hk. rewrite Hprod in B1, I2.
  assert (k = 52) as -> by lia.
  assert (m1 = Zpos m) as ->.
  { destruct B1 as [B1l B1u].
    apply (scale_le _ _ _ P52) in B1l. apply (scale_lt _ _ _ P52) in B1u. lia. }
  assert (m2 = Zpos m) as ->.
  { destruct (Z.eq_dec m2 (Zpos m + 1)) as [Heq | Hne]; [ | lia ].
    specialize (I2 Heq). lia. }
  cbn [Zdigits2] in Hk'. fold dm in Hk'. rewrite fexp64 in Hk'.
  assert (k' = 0) as -> by lia.
  change (2 ^ 0) with 1 in B3.
  assert (m3 = Zpos m) as -> by lia.
  replace (e + -52 + 52 + 0) with e by lia.
  replace (e <=? emax - prec) with true; [ reflexivity | ].
  symmetry. apply Z.leb_le. change (emax - prec) with 971. exact He.
Qed.

End Binary64Exact.

Lemma mul_one_r (x : float) : (x * 1)%float = x.
Proof.
  apply Prim2SF_inj. rewrite FloatAxioms.mul_spec, Prim2SF_one.
  pose proof (Prim2SF_valid x) as Hv.
  destruct (Prim2SF x) as [[] | [] | | s m e]; try reflexivity.
  now apply SFmul_one.
Qed.

(** X10. A percentage discount of rate 0 is no discount: for every
    total, NaN and the infinities too, [PercentageDiscount(0)] returns
    exactly the total it is given, as [NoDiscount] does. *)
Theorem zero_rate_is_no_discount (w : world) (self other : loc) (total : float) :
  heap w !! self = Some (PercentageDiscount 0) ->
  heap w !! other = Some NoDiscount ->
  apply_discount self total w = Ok total w /\
  apply_discount self total w = apply_discount other total w.
Proof.
  intros Hs Ho.
  rewrite (apply_discount_PercentageDiscount w self 0 total Hs),
    (apply_discount_NoDiscount w other total Ho).
  change (1 - 0)%float with 1%float. rewrite mul_one_r. split; reflexivity.
Qed.

(** X11. A percentage discount of rate 1 takes everything: for every
    finite total, [PercentageDiscount(1)] returns zero (of either sign). *)
Theorem full_rate_gives_zero (w : world) (self : loc) (total : float) :
  heap w !! self = Some (PercentageDiscount 1) ->
  (abs total <? infinity)%float = true ->
  exists x : float,
    apply_discount self total w = Ok x w /\ (x =? 0)%float = true.
Proof.
  intros Hs Hfin. exists (total * (1 - 1))%float. split.
  - now apply apply_discount_PercentageDiscount.
  - change (1 - 1)%float with 0%float.
    rewrite FloatAxioms.eqb_spec, FloatAxioms.mul_spec, Prim2SF_zero.
    rewrite FloatAxioms.ltb_spec, FloatAxioms.abs_spec, Prim2SF_infinity in Hfin.
    destruct (Prim2SF total) as [[] | [] | | [] m e];
      first [ discriminate Hfin | reflexivity ].
Qed.

(** ** The further properties on sample inputs *)

Lemma loop_always_stops_witness :
  session sample_int sample_float
    (console ["Ana"; "bread,milk"; "100"; "1"; "2"; "n"])
  = Some (Ok tt (World (order_objects 0 "Ana" "bread,milk" 1 2) []
                   (order_output "Ana" "bread,milk" 100 1 2 ++
                    [continue_prompt; closing_line]))).
Proof.
  apply (proj2 (loop_always_stops sample_int sample_float
                  (console ["Ana"; "bread,milk"; "100"; "1"; "2"; "n"])) 1%nat).
  reflexivity.
Defined.

Lemma normal_end_accounting_witness :
  exists (n : nat) (so : list out),
    (1 <= n)%nat /\
    6%nat = (6 * n + 0)%nat /\
    orders_saved (order_output "Ana" "bread,milk" 100 1 2 ++
                  [continue_prompt; closing_line]) = (0 + n)%nat /\
    5%nat = (0 + 5 * n)%nat /\
    order_output "Ana" "bread,milk" 100 1 2 ++ [continue_prompt; closing_line]
    = so ++ [closing_line].
Proof.
  exact (normal_end_accounting sample_int sample_float 1
           (console ["Ana"; "bread,milk"; "100"; "1"; "2"; "n"])
           (World (order_objects 0 "Ana" "bread,milk" 1 2) []
              (order_output "Ana" "bread,milk" 100 1 2 ++
               [continue_prompt; closing_line]))
           tt eq_refl).
Defined.

Lemma abnormal_end_accounting_witness :
  exists (n : nat) (written : list out),
    order_output "Ana" "bread,milk" 100 1 2 ++ [continue_prompt] ++ order_prompts
    = [] ++ written /\
    orders_saved written = n /\
    closings written = 0%nat /\
    (0 + 6 * n <= 9 + 1)%nat /\
    (9 <= 0 + 6 * n + 5)%nat.
Proof.
  exact (abnormal_end_accounting sample_int sample_float 2
           (console ["Ana"; "bread,milk"; "100"; "1"; "2"; "s";
                     "Bia"; "tea"; "abc"])
           (World (order_objects 0 "Ana" "bread,milk" 1 2) []
              (order_output "Ana" "bread,milk" 100 1 2 ++ [continue_prompt] ++
               order_prompts))
           ValueError eq_refl).
Defined.

Lemma world_only_grows_witness :
  extends (World [NoDiscount] ["Ana"; "bread,milk"; "abc"; "1"] [closing_line])
    (World [NoDiscount] ["1"] (closing_line :: order_prompts)).
Proof.
  exact (world_only_grows sample_int sample_float 1
           (World [NoDiscount] ["Ana"; "bread,milk"; "abc"; "1"] [closing_line])
           (Raise ValueError
              (World [NoDiscount] ["1"] (closing_line :: order_prompts)))
           eq_refl).
Defined.

Lemma services_stay_usable_witness :
  exists w' : world,
    place_order 3 2 50
      (World (order_objects 0 "Ana" "bread,milk" 1 2) []
         (order_output "Ana" "bread,milk" 100 1 2 ++
          [continue_prompt; closing_line]))
    = Ok tt w'.
Proof.
  destruct (services_stay_usable sample_int sample_float 1
              (console ["Ana"; "bread,milk"; "100"; "1"; "2"; "n"])
              (Ok tt (World (order_objects 0 "Ana" "bread,milk" 1 2) []
                        (order_output "Ana" "bread,milk" 100 1 2 ++
                         [continue_prompt; closing_line])))
              well_formed_nil eq_refl) as [_ H].
  exact (H 3%nat 2%nat 0%nat 1%nat ["bread"; "milk"] "Ana" 50%float eq_refl eq_refl).
Defined.


Lemma never_overcharged_witness :
  exists (w' : world) (amount : float) (so : list out),
    get_user_input sample_int sample_float
      (console ["Ana"; "bread,milk"; "100"; "1"; "2"]) = Ok tt w' /\
    stdout w' =
      so ++ [total_line amount; payment_line CreditCardPayment amount;
             saved_line "Ana" ["bread"; "milk"]] /\
    (amount <=? 100)%float = true.
Proof.
  exact (never_overcharged sample_int sample_float
           (console ["Ana"; "bread,milk"; "100"; "1"; "2"])
           "Ana" "bread,milk" "100" "1" "2" [] 100 1 2
           eq_refl eq_refl eq_refl eq_refl eq_refl).
Defined.

Lemma place_order_does_not_roll_back_witness :
  place_order 3 2 100
    (World [PixPayment; PercentageDiscount 0.1; OrderRepository; OrderService 0 1]
       [] [])
  = Raise AttributeError
      (World [PixPayment; PercentageDiscount 0.1; OrderRepository;
              OrderService 0 1; OrderRepository] []
         [total_line 90; pix_line 90]).
Proof.
  destruct (place_order_does_not_roll_back
              (World [PixPayment; PercentageDiscount 0.1; OrderRepository;
                      OrderService 0 1] [] [])
              3 2 100 0 1 (PercentageDiscount 0.1) eq_refl eq_refl)
    as (_ & _ & H).
  exact (H PixPayment OrderRepository eq_refl eq_refl eq_refl eq_refl eq_refl).
Defined.

Lemma split_round_trip_witness :
  split "," "" = [""] /\
  length (split "," "bread,milk") = 2%nat /\
  String.concat "," (split "," "a,,b,") = "a,,b,".
Proof.
  split; [ | split ].
  - exact (proj1 (proj2 (split_round_trip "," "")) eq_refl).
  - exact (proj1 (proj2 (proj2 (split_round_trip "," "bread,milk")))).
  - exact (proj2 (proj2 (proj2 (proj2 (split_round_trip "," "a,,b,"))))).
Defined.

Lemma zero_rate_is_no_discount_witness :
  apply_discount 0 100 (World [PercentageDiscount 0; NoDiscount] [] [])
  = Ok 100%float (World [PercentageDiscount 0; NoDiscount] [] []) /\
  apply_discount 0 100 (World [PercentageDiscount 0; NoDiscount] [] [])
  = apply_discount 1 100 (World [PercentageDiscount 0; NoDiscount] [] []).
Proof.
  exact (zero_rate_is_no_discount
           (World [PercentageDiscount 0; NoDiscount] [] []) 0 1 100
           eq_refl eq_refl).
Defined.

Lemma full_rate_gives_zero_witness :
  exists x : float,
    apply_discount 0 (-100) (World [PercentageDiscount 1] [] [])
    = Ok x (World [PercentageDiscount 1] [] []) /\
    (x =? 0)%float = true.
Proof.
  exact (full_rate_gives_zero (World [PercentageDiscount 1] [] []) 0 (-100)
           eq_refl eq_refl).
Defined.
